(** * Contrib-Tracker: the leaderboard script [scripts/contrib_tracker.py]

    A shallow embedding of the script and the properties of its
    pagination loops, rate-limit handling, aggregation, sorting and
    markdown rendering.

    Conventions of the embedding.
    - Python [int] is [Z]; Python [str] is [string], one byte for each
      character: the Latin-1 text of the headers of a response, and
      ASCII text elsewhere.
    - A decoded JSON document is a value of [json].  JSON numbers are
      integers here: the counts of the GitHub API are integers, and
      floating point is not modelled.
    - The network is a script: the list of responses the server gives to
      the successive requests of the run.  A function that performs
      requests consumes a prefix of the script; when the script ends
      while the code still waits for a response the outcome is [Starved].
      A request always gets a response: connection errors are outside
      the embedding.
    - What the operating system does is left to a [Platform]: which
      sleeps it carries out among those the interpreter accepts, and
      what becomes of writing the output file.  The limits of the
      interpreter are those of CPython 3.11: 4300 digits for the
      conversions between [int] and [str], 9223372036 seconds for a
      sleep.
    - The other effects (clock, [time.sleep], [print], the file written)
      are recorded in an [env]: the clock in whole seconds and the trace
      of events, most recent first.
    - A Python exception is an [exn]; [sys.exit(n)] is [SystemExit n]. *)

From Stdlib Require Import ZArith String Ascii List Sorted Permutation Lia.
From Stdlib Require Import DecimalString DecimalZ Decimal.
From stdpp Require Import base list gmap strings.

Import ListNotations.
Local Open Scope string_scope.
Local Open Scope list_scope.
Local Open Scope Z_scope.

#[local] Set Warnings "-register-all".

(** ** Python values *)

Inductive json : Type :=
| JNull
| JBool (b : bool)
| JInt (n : Z)
| JStr (s : string)
| JList (l : list json)
| JDict (d : list (string * json)).

Inductive exn : Type :=
| TypeError
| ValueError
| AttributeError
| JSONDecodeError
| OverflowError
| OSError
| UnicodeEncodeError
| SystemExit (code : Z).

(** Truth value of an object, as tested by [if v] and [not v]. *)
Definition truthy (v : json) : bool :=
  match v with
  | JNull => false
  | JBool b => b
  | JInt n => negb (n =? 0)
  | JStr s => negb (String.eqb s EmptyString)
  | JList l => match l with [] => false | _ => true end
  | JDict d => match d with [] => false | _ => true end
  end.

Fixpoint chars (s : string) : list json :=
  match s with
  | EmptyString => []
  | String c s' => JStr (String c EmptyString) :: chars s'
  end.

(** The elements an iteration over [v] yields ([for x in v],
    [list.extend(v)]); [None] is the [TypeError] of a value that is not
    iterable.  A dict yields its keys, a string its characters. *)
Definition py_iter (v : json) : option (list json) :=
  match v with
  | JList l => Some l
  | JDict d => Some (map (fun kv => JStr (fst kv)) d)
  | JStr s => Some (chars s)
  | _ => None
  end.

(** [len(v)]; [None] is the [TypeError] of a value without a length. *)
Definition py_len (v : json) : option Z :=
  match v with
  | JList l => Some (Z.of_nat (length l))
  | JDict d => Some (Z.of_nat (length d))
  | JStr s => Some (Z.of_nat (String.length s))
  | _ => None
  end.

(** A dict is kept as its items in insertion order, with distinct keys. *)
Fixpoint assoc_get {A} (k : string) (d : list (string * A)) : option A :=
  match d with
  | [] => None
  | (k', v) :: d' => if String.eqb k k' then Some v else assoc_get k d'
  end.

(** [v.get(k, dflt)]: only a dict has the method. *)
Definition py_get (v : json) (k : string) (dflt : json) : exn + json :=
  match v with
  | JDict d => inr (default dflt (assoc_get k d))
  | _ => inl AttributeError
  end.

(** [n + v] for an [int] n: the sum with an int or a bool, a [TypeError]
    with anything else. *)
Definition py_add (n : Z) (v : json) : exn + Z :=
  match v with
  | JInt k => inr (n + k)
  | JBool b => inr (n + (if b then 1 else 0))
  | _ => inl TypeError
  end.

(** *** [str(n)] and [int(s)] *)

Definition py_str_int (n : Z) : string :=
  NilZero.string_of_int (Z.to_int n).

Definition is_space (c : ascii) : bool :=
  let n := nat_of_ascii c in
  ((9 <=? n) && (n <=? 13) || (n =? 32) || (n =? 133) || (n =? 160))%nat.

Definition is_digit (c : ascii) : bool :=
  let n := nat_of_ascii c in ((48 <=? n) && (n <=? 57))%nat.

Definition is_empty (s : string) : bool :=
  match s with EmptyString => true | _ => false end.

Fixpoint lstrip (s : string) : string :=
  match s with
  | EmptyString => EmptyString
  | String c s' => if is_space c then lstrip s' else s
  end.

Fixpoint rstrip (s : string) : string :=
  match s with
  | EmptyString => EmptyString
  | String c s' =>
      let r := rstrip s' in
      if is_space c && is_empty r then EmptyString else String c r
  end.

(** Digits, with single underscores allowed between two digits. *)
Fixpoint grouped (after_digit : bool) (s : string) : bool :=
  match s with
  | EmptyString => after_digit
  | String c s' =>
      if is_digit c then grouped true s'
      else if Ascii.eqb c "_" then after_digit && negb (is_empty s') && grouped false s'
      else false
  end.

Fixpoint drop_underscores (s : string) : string :=
  match s with
  | EmptyString => EmptyString
  | String c s' =>
      if Ascii.eqb c "_" then drop_underscores s' else String c (drop_underscores s')
  end.

Definition py_nat (s : string) : option Z :=
  if grouped false s
  then Z.of_uint <$> NilEmpty.uint_of_string (drop_underscores s)
  else None.

(** The integer [int(s)] returns, in base ten, for a text of Latin-1
    characters held one byte each: surrounding white space (the ASCII
    kind, U+0085 and U+00A0), an optional sign, digits; [None] is the
    [ValueError].  The limit [int] puts on the number of digits is in
    [py_int_limited]. *)
Definition py_int (s : string) : option Z :=
  match rstrip (lstrip s) with
  | EmptyString => None
  | String c ds =>
      if Ascii.eqb c "-" then Z.opp <$> py_nat ds
      else if Ascii.eqb c "+" then py_nat ds
      else py_nat (String c ds)
  end.

Fixpoint count_digits (s : string) : nat :=
  match s with
  | EmptyString => O
  | String c s' => ((if is_digit c then 1 else 0) + count_digits s')%nat
  end.

Definition MAX_STR_DIGITS : nat := 4300.

(** [int(s)] as the interpreter computes it: a text of more than
    [MAX_STR_DIGITS] digits is refused with [ValueError]. *)
Definition py_int_limited (s : string) : option Z :=
  if (count_digits s <=? MAX_STR_DIGITS)%nat then py_int s else None.

(** Whether [str(n)], and so an f-string, renders [n]: an integer of
    more than [MAX_STR_DIGITS] digits is refused with [ValueError]. *)
Definition fits_str (n : Z) : bool := Z.abs n <? 10 ^ Z.of_nat MAX_STR_DIGITS.

(** Module constants. *)
Definition REPOS : list string := ["NepTechTribe/CodeVault"; "NepTechTribe/EventLog"].
Definition PER_PAGE : Z := 100.

(** ** Responses, effects and outcomes *)

(** A response of the [requests] library: [json_body] is what
    [resp.json()] returns, [None] when the body does not decode.
    [headers] are the items of the case-insensitive dict of the
    response, names as received and distinct up to case, names and
    values in Latin-1 as the library decodes them. *)
Record response : Type := Response {
  status_code : Z;
  headers : list (string * string);
  text : string;
  json_body : option json
}.

Definition ascii_lower (c : ascii) : ascii :=
  let n := nat_of_ascii c in
  if ((65 <=? n) && (n <=? 90))%nat then ascii_of_nat (n + 32) else c.

Fixpoint lower (s : string) : string :=
  match s with
  | EmptyString => EmptyString
  | String c s' => String (ascii_lower c) (lower s')
  end.

(** [resp.headers.get(name)]: the lookup ignores the case of the name.
    The names the script looks up are ASCII, and against an ASCII name
    the lowering of the letters A to Z decides the comparison. *)
Fixpoint header_get (name : string) (hs : list (string * string)) : option string :=
  match hs with
  | [] => None
  | (k, v) :: hs' =>
      if String.eqb (lower k) (lower name) then Some v else header_get name hs'
  end.

(** What the script prints, kept structured instead of formatted. *)
Inductive message : Type :=
| ParticipantsNotFound (path : string)
| ParticipantsError
| ParticipantsEmpty
| TokenMissing
| Computing (repos : list string)
| Options (include_zero include_prs_issues : bool)
| ProcessingContributors (repo : string)
| CountingPRsIssues
| ProcessingIssues (repo : string)
| RateLimitReached (wait : Z)
| ContributorsFailed (repo : string) (page status : Z) (body : string)
| IssuesFailed (author repo : string) (page status : Z) (body : string)
| Wrote (path : string)
| ArgparseHelp
| ArgparseError.

Inductive event : Type :=
| Get (url : string) (hdrs : list (string * string)) (params : list (string * json))
| Sleep (secs : Z)
| Stdout (m : message)
| Stderr (m : message)
| WriteFile (path content : string)
| Truncate (path : string).

Record env : Type := Env { clock : Z; trace : list event }.

Definition log (ev : event) (e : env) : env :=
  {| clock := clock e; trace := ev :: trace e |}.

(** [time.sleep(secs)]: the clock moves on by the time slept. *)
Definition sleep (secs : Z) (e : env) : env :=
  {| clock := clock e + secs; trace := Sleep secs :: trace e |}.

Inductive outcome (A : Type) : Type :=
| Returned (a : A) (rest : list response) (e : env)
| Raised (x : exn) (e : env)
| Starved (e : env).
Arguments Returned {A} a rest e.
Arguments Raised {A} x e.
Arguments Starved {A} e.

(** Computations that perform requests: from the responses still to come
    and the environment to an outcome. *)
Definition M (A : Type) : Type := list response -> env -> outcome A.

Definition ret {A} (a : A) : M A := fun script e => Returned a script e.

Definition bind {A B} (m : M A) (k : A -> M B) : M B :=
  fun script e =>
    match m script e with
    | Returned a rest e' => k a rest e'
    | Raised x e' => Raised x e'
    | Starved e' => Starved e'
    end.

Definition raise {A} (x : exn) : M A := fun _ e => Raised x e.

Definition emit (ev : event) : M unit := fun script e => Returned tt script (log ev e).

Definition lift {A} (r : exn + A) : M A :=
  match r with inl x => raise x | inr a => ret a end.

Notation "'let*' x ':=' m 'in' k" := (bind m (fun x => k))
  (at level 10, x pattern, m at level 100, k at level 200).

Fixpoint for_each {A S} (l : list A) (body : A -> S -> M S) (s : S) : M S :=
  match l with
  | [] => ret s
  | x :: l' => let* s' := body x s in for_each l' body s'
  end.

(** ** The operating system *)

(** What becomes of [open(path, "w", encoding="utf-8")] followed by
    [f.write(content)]: the text is written; or the file cannot be
    opened and is left as it was; or it is opened, which empties it, and
    the write fails, for a text that UTF-8 does not encode or for a
    reason of the system. *)
Inductive write_result : Type :=
| Written
| OpenFails
| WriteFails (unencodable : bool).

(** [os_sleeps now secs]: whether the system carries out a sleep of
    [secs] seconds asked for at time [now]; consulted only for
    durations the interpreter accepts.  [os_writes path content]: what
    becomes of writing [content] to [path]. *)
Class Platform : Type := {
  os_sleeps : Z -> Z -> bool;
  os_writes : string -> string -> write_result
}.

Definition MAX_SLEEP : Z := 9223372036.

(** [time.sleep(secs)] for an [int]: a duration that does not fit the
    interpreter's clock is an [OverflowError], a negative one a
    [ValueError], one the system refuses an [OSError]. *)
Definition time_sleep {pf : Platform} (secs : Z) (e : env) : (exn * env) + env :=
  if MAX_SLEEP <? Z.abs secs then inl (OverflowError, e)
  else if secs <? 0 then inl (ValueError, e)
  else if os_sleeps (clock e) secs then inr (sleep secs e)
  else inl (OSError, e).

(** ** [handle_rate_limit] (lines 30-40)

    Not a request: it reads the clock, prints and sleeps.  The result is
    the exception raised, with the environment at that point, or the
    flag with the environment after the sleep. *)
Definition handle_rate_limit {pf : Platform} (resp : response) (e : env)
  : (exn * env) + (bool * env) :=
  if status_code resp =? 403 then
    let rem := header_get "X-RateLimit-Remaining" (headers resp) in
    let reset := header_get "X-RateLimit-Reset" (headers resp) in
    match rem, reset with
    | Some rem, Some reset =>
        if String.eqb rem "0" && negb (is_empty reset) then
          match py_int_limited reset with
          | None => inl (ValueError, e)
          | Some reset_ts =>
              let wait := Z.max 0 (reset_ts - clock e) + 2 in
              if fits_str wait then
                match time_sleep wait (log (Stdout (RateLimitReached wait)) e) with
                | inl raised => inl raised
                | inr e' => inr (true, e')
                end
              else inl (ValueError, e)
          end
        else inr (false, e)
    | _, _ => inr (false, e)
    end
  else inr (false, e).

(** ** The requests of the script *)

Section Program.

Context {pf : Platform}.

(** The [TOKEN] environment variable, read when the module is loaded. *)
Variable TOKEN : option string.

(** The order in which a [for] loop visits a Python set: fixed during a
    run, otherwise unspecified. *)
Variable set_iter : gset string -> list string.

(** [str(v)] for a list or a dict, used when an f-string renders such a
    value; the text Python builds for containers is left abstract. *)
Variable repr_container : json -> string.

Definition HEADERS : list (string * string) :=
  ("Accept", "application/vnd.github.v3+json") ::
  match TOKEN with
  | Some tok => if is_empty tok then [] else [("Authorization", "token " +:+ tok)]
  | None => []
  end.

(** [requests.get(url, headers=HEADERS, params=params)]: the request is
    recorded and the next response of the script is the answer. *)
Definition requests_get (url : string) (params : list (string * json)) : M response :=
  fun script e =>
    let e := log (Get url HEADERS params) e in
    match script with
    | [] => Starved e
    | resp :: rest => Returned resp rest e
    end.

(** *** [fetch_contributors_for_repo] (lines 42-65)

    One iteration of [while True] per response, so the loop is a
    recursion on the responses to come.  [page] and [contributors] are
    the local variables. *)
Fixpoint contributors_loop (repo : string) (script : list response)
    (page : Z) (contributors : list json) (e : env) {struct script}
  : outcome (list json) :=
  let url := "https://api.github.com/repos/" +:+ repo +:+ "/contributors" in
  let params := [("per_page", JInt PER_PAGE); ("page", JInt page)] in
  let e := log (Get url HEADERS params) e in
  match script with
  | [] => Starved e
  | resp :: rest =>
      match handle_rate_limit resp e with
      | inl (x, e) => Raised x e
      | inr (true, e) => contributors_loop repo rest page contributors e
      | inr (false, e) =>
          if negb (status_code resp =? 200) then
            Returned contributors rest
              (log (Stderr (ContributorsFailed repo page (status_code resp) (text resp))) e)
          else
            match json_body resp with
            | None => Raised JSONDecodeError e
            | Some page_items =>
                if negb (truthy page_items) then Returned contributors rest e
                else
                  match py_iter page_items, py_len page_items with
                  | Some items, Some n =>
                      let contributors := contributors ++ items in
                      if n <? PER_PAGE then Returned contributors rest e
                      else contributors_loop repo rest (page + 1) contributors e
                  | _, _ => Raised TypeError e
                  end
            end
      end
  end.

Definition fetch_contributors_for_repo (repo : string) : M (list json) :=
  fun script e => contributors_loop repo script 1 [] e.

(** *** [fetch_issues_and_prs_for_author] (lines 67-96) *)

(** The [for it in items] loop of lines 88-92. *)
Fixpoint count_items (items : list json) (issues_count prs_count : Z)
  : exn + (Z * Z) :=
  match items with
  | [] => inr (issues_count, prs_count)
  | it :: items' =>
      match py_get it "pull_request" JNull with
      | inl x => inl x
      | inr pr =>
          if truthy pr then count_items items' issues_count (prs_count + 1)
          else count_items items' (issues_count + 1) prs_count
      end
  end.

Fixpoint issues_loop (repo author : string) (script : list response)
    (page issues_count prs_count : Z) (e : env) {struct script}
  : outcome (Z * Z) :=
  let url := "https://api.github.com/repos/" +:+ repo +:+ "/issues" in
  let params := [("per_page", JInt PER_PAGE); ("page", JInt page);
                 ("state", JStr "all"); ("creator", JStr author)] in
  let e := log (Get url HEADERS params) e in
  match script with
  | [] => Starved e
  | resp :: rest =>
      match handle_rate_limit resp e with
      | inl (x, e) => Raised x e
      | inr (true, e) => issues_loop repo author rest page issues_count prs_count e
      | inr (false, e) =>
          if negb (status_code resp =? 200) then
            Returned (issues_count, prs_count) rest
              (log (Stderr (IssuesFailed author repo page (status_code resp) (text resp))) e)
          else
            match json_body resp with
            | None => Raised JSONDecodeError e
            | Some items =>
                if negb (truthy items) then Returned (issues_count, prs_count) rest e
                else
                  match py_iter items, py_len items with
                  | Some its, Some n =>
                      match count_items its issues_count prs_count with
                      | inl x => Raised x e
                      | inr (issues_count, prs_count) =>
                          if n <? PER_PAGE then Returned (issues_count, prs_count) rest e
                          else issues_loop repo author rest (page + 1) issues_count prs_count e
                      end
                  | _, _ => Raised TypeError e
                  end
            end
      end
  end.

Definition fetch_issues_and_prs_for_author (repo author : string) : M (Z * Z) :=
  fun script e => issues_loop repo author script 1 0 0 e.

(** *** [get_user_meta] (lines 98-109) *)

Record meta : Type := Meta { meta_avatar : json; meta_url : json }.

Definition profile_url (login : string) : string := "https://github.com/" +:+ login.

Definition fallback_meta (login : string) : meta :=
  {| meta_avatar := JStr EmptyString; meta_url := JStr (profile_url login) |}.

Definition rate_limited (resp : response) : M bool :=
  fun script e =>
    match handle_rate_limit resp e with
    | inl (x, e') => Raised x e'
    | inr (b, e') => Returned b script e'
    end.

(** Lines 102-105: the request, and the one retry after a rate limit. *)
Definition profile_response (login : string) : M response :=
  let url := "https://api.github.com/users/" +:+ login in
  let* resp := requests_get url [] in
  let* retry := rate_limited resp in
  if retry : bool then requests_get url [] else ret resp.

Definition get_user_meta (login : string) : M meta :=
  let* resp := profile_response login in
  if status_code resp =? 200 then
    match json_body resp with
    | None => raise JSONDecodeError
    | Some j =>
        let* avatar := lift (py_get j "avatar_url" (JStr EmptyString)) in
        let* url := lift (py_get j "html_url" (JStr (profile_url login))) in
        ret {| meta_avatar := avatar; meta_url := url |}
    end
  else ret (fallback_meta login).

(** *** [build_markdown] (lines 111-130) *)

(** The dict stored in [users] for a login (lines 189-195). *)
Record user_data : Type := UserData {
  avatar : json;
  url : json;
  commits : Z;
  prs : Z;
  issues : Z
}.

(** [str(v)], as an f-string renders a value. *)
Definition py_str (v : json) : string :=
  match v with
  | JNull => "None"
  | JBool true => "True"
  | JBool false => "False"
  | JInt n => py_str_int n
  | JStr s => s
  | JList _ | JDict _ => repr_container v
  end.

Definition dquote : string := String (ascii_of_nat 34) EmptyString.
Definition newline : string := String (ascii_of_nat 10) EmptyString.

Definition avatar_md (data : user_data) : string :=
  if truthy (avatar data) then
    "<img src=" +:+ dquote +:+ py_str (avatar data) +:+ dquote +:+
    " width=" +:+ dquote +:+ "40" +:+ dquote +:+
    " height=" +:+ dquote +:+ "40" +:+ dquote +:+
    " style=" +:+ dquote +:+ "border-radius:50%" +:+ dquote +:+ "/>"
  else EmptyString.

(** Line 122. *)
Definition row_prs_issues (i : Z) (login : string) (data : user_data) : string :=
  let commits := commits data in
  let prs := prs data in
  let issues := issues data in
  let total := commits + prs + issues in
  "| " +:+ py_str_int i +:+ " | " +:+ avatar_md data +:+
  " | [" +:+ login +:+ "](" +:+ py_str (url data) +:+ ") | " +:+
  py_str_int commits +:+ " | " +:+ py_str_int prs +:+ " | " +:+
  py_str_int issues +:+ " | " +:+ py_str_int total +:+ " |".

(** Line 129. *)
Definition row_commits (i : Z) (login : string) (data : user_data) : string :=
  "| " +:+ py_str_int i +:+ " | " +:+ avatar_md data +:+
  " | [" +:+ login +:+ "](" +:+ py_str (url data) +:+ ") | " +:+
  py_str_int (commits data) +:+ " |".

(** [for i, (login, data) in enumerate(sorted_users, i)]: one line each. *)
Fixpoint rows (row : Z -> string -> user_data -> string) (i : Z)
    (sorted_users : list (string * user_data)) : list string :=
  match sorted_users with
  | [] => []
  | (login, data) :: rest => row i login data :: rows row (i + 1) rest
  end.

Definition table_lines (sorted_users : list (string * user_data))
    (include_prs_issues : bool) : list string :=
  if include_prs_issues then
    ("# 🧑‍💻 All-time Contribution Leaderboard (Commits + PRs + Issues)" +:+ newline) ::
    "| Rank | Avatar | User | Total Commits | PRs | Issues | Total |" ::
    "|------|---------|------|----------------|-----:|-------:|------:|" ::
    rows row_prs_issues 1 sorted_users
  else
    ("# 🧑‍💻 All-time Contribution Leaderboard (Commits)" +:+ newline) ::
    "| Rank | Avatar | User | Total Commits |" ::
    "|------|---------|------|----------------|" ::
    rows row_commits 1 sorted_users.

Definition build_markdown (sorted_users : list (string * user_data))
    (include_prs_issues show_zero : bool) : string :=
  String.concat newline (table_lines sorted_users include_prs_issues).

(** *** [main] (lines 132-208) *)

Record args : Type := Args {
  include_zero : bool;
  include_prs_issues : bool;
  repos : option (list string)
}.

(** What opening and decoding the participants file gives. *)
Inductive participants_file : Type :=
| FileNotFound
| LoadError
| Items (items : list string).

(** Lines 18-28. *)
Definition load_participants (path : string) (file : participants_file)
  : M (gset string) :=
  match file with
  | Items items => ret (list_to_set items)
  | FileNotFound =>
      let* _ := emit (Stderr (ParticipantsNotFound path)) in raise (SystemExit 1)
  | LoadError =>
      let* _ := emit (Stderr ParticipantsError) in raise (SystemExit 1)
  end.

(** The body of [for c in contribs] (lines 160-166); [commits_counts] is
    a [defaultdict(int)]. *)
Definition count_contributor (participants : gset string) (c : json)
    (commits_counts : gmap string Z) : exn + gmap string Z :=
  match py_get c "login" JNull with
  | inl x => inl x
  | inr login =>
      if negb (truthy login) then inr commits_counts
      else
        match login with
        | JStr l =>
            if negb (bool_decide (l ∈ participants)) then inr commits_counts
            else
              match py_get c "contributions" (JInt 0) with
              | inl x => inl x
              | inr contributions =>
                  match py_add (default 0 (commits_counts !! l)) contributions with
                  | inl x => inl x
                  | inr n => inr (<[l := n]> commits_counts)
                  end
              end
        | JList _ | JDict _ => inl TypeError (* unhashable *)
        | _ => inr commits_counts (* no number is in a set of strings *)
        end
  end.

Fixpoint count_contributors (participants : gset string) (contribs : list json)
    (commits_counts : gmap string Z) : exn + gmap string Z :=
  match contribs with
  | [] => inr commits_counts
  | c :: contribs' =>
      match count_contributor participants c commits_counts with
      | inl x => inl x
      | inr commits_counts => count_contributors participants contribs' commits_counts
      end
  end.

(** Lines 156-166. *)
Definition count_commits (participants : gset string) (repos : list string)
  : M (gmap string Z) :=
  for_each repos (fun repo commits_counts =>
    let* _ := emit (Stdout (ProcessingContributors repo)) in
    let* contribs := fetch_contributors_for_repo repo in
    lift (count_contributors participants contribs commits_counts)) ∅.

Definition add_count (login : string) (n : Z) (counts : gmap string Z)
  : gmap string Z :=
  if n =? 0 then counts else <[login := default 0 (counts !! login) + n]> counts.

(** Lines 170-177; the state is [(prs_counts, issues_counts)]. *)
Definition count_prs_issues (participants : gset string) (repos : list string)
  : M (gmap string Z * gmap string Z) :=
  for_each repos (fun repo counts =>
    let* _ := emit (Stdout (ProcessingIssues repo)) in
    for_each (set_iter participants) (fun login '(prs_counts, issues_counts) =>
      let* (i_count, p_count) := fetch_issues_and_prs_for_author repo login in
      let issues_counts := add_count login i_count issues_counts in
      let prs_counts := add_count login p_count prs_counts in
      ret (prs_counts, issues_counts)) counts) (∅, ∅).

(** [d[k] = v] on a dict kept in insertion order. *)
Fixpoint dict_set {A} (k : string) (v : A) (d : list (string * A))
  : list (string * A) :=
  match d with
  | [] => [(k, v)]
  | (k', v') :: d' =>
      if String.eqb k k' then (k, v) :: d' else (k', v') :: dict_set k v d'
  end.

(** The body of [for login in participants] (lines 182-195). *)
Definition collect_user (include_zero : bool)
    (commits_counts prs_counts issues_counts : gmap string Z)
    (login : string) (users : list (string * user_data))
  : M (list (string * user_data)) :=
  let commits := default 0 (commits_counts !! login) in
  let prs := default 0 (prs_counts !! login) in
  let issues := default 0 (issues_counts !! login) in
  let total := commits + prs + issues in
  if negb include_zero && (total =? 0) then ret users
  else
    let* meta := get_user_meta login in
    ret (dict_set login
           {| avatar := meta_avatar meta; url := meta_url meta;
              commits := commits; prs := prs; issues := issues |} users).

(** Lines 179-195. *)
Definition collect_users (include_zero : bool) (participants : gset string)
    (commits_counts prs_counts issues_counts : gmap string Z)
  : M (list (string * user_data)) :=
  for_each (set_iter participants)
    (collect_user include_zero commits_counts prs_counts issues_counts) [].

(** [sorted(l, key=key, reverse=True)]: the stable sort into
    non-increasing keys, elements of equal key in their order in [l]. *)
Fixpoint insert_desc {A} (key : A -> Z) (x : A) (l : list A) : list A :=
  match l with
  | [] => [x]
  | y :: l' => if key y <=? key x then x :: l else y :: insert_desc key x l'
  end.

Fixpoint py_sorted_reverse {A} (key : A -> Z) (l : list A) : list A :=
  match l with
  | [] => []
  | x :: l' => insert_desc key x (py_sorted_reverse key l')
  end.

Definition total_key (x : string * user_data) : Z :=
  commits (snd x) + prs (snd x) + issues (snd x).

Definition commits_key (x : string * user_data) : Z := commits (snd x).

Definition sort_key (include_prs_issues : bool) : string * user_data -> Z :=
  if include_prs_issues then total_key else commits_key.

(** Lines 139-177: the participants and the three counters. *)
Definition tally (a : args) (file : participants_file)
  : M (gset string * gmap string Z * gmap string Z * gmap string Z) :=
  let repos := match repos a with Some (r :: rs) => r :: rs | _ => REPOS end in
  let* participants := load_participants "data/participants.json" file in
  if bool_decide (participants = ∅) then
    let* _ := emit (Stderr ParticipantsEmpty) in raise (SystemExit 1)
  else
    let* _ := (match TOKEN with
               | Some (String _ _) => ret tt
               | _ => emit (Stderr TokenMissing)
               end) in
    let* _ := emit (Stdout (Computing repos)) in
    let* _ := emit (Stdout (Options (include_zero a) (include_prs_issues a))) in
    let* commits_counts := count_commits participants repos in
    let* (prs_counts, issues_counts) :=
      (if include_prs_issues a then
         let* _ := emit (Stdout CountingPRsIssues) in
         count_prs_issues participants repos
       else ret (∅, ∅)) in
    ret (participants, commits_counts, prs_counts, issues_counts).

(** Lines 139-201: everything up to the sorted list of users. *)
Definition rank_users (a : args) (file : participants_file)
  : M (list (string * user_data)) :=
  let* (participants, commits_counts, prs_counts, issues_counts) := tally a file in
  let* users :=
    collect_users (include_zero a) participants
      commits_counts prs_counts issues_counts in
  ret (py_sorted_reverse (sort_key (include_prs_issues a)) users).

(** Lines 206-207: [with open(path, "w", encoding="utf-8") as f:
    f.write(content)].  A file that cannot be opened raises [OSError]
    and is not touched; a write that fails raises after the open has
    emptied the file, which [Truncate] records. *)
Definition write_text (path content : string) : M unit :=
  fun script e =>
    match os_writes path content with
    | Written => Returned tt script (log (WriteFile path content) e)
    | OpenFails => Raised OSError e
    | WriteFails unencodable =>
        Raised (if unencodable then UnicodeEncodeError else OSError)
          (log (Truncate path) e)
    end.

Definition main (a : args) (file : participants_file) : M unit :=
  let* sorted_users := rank_users a file in
  let md := build_markdown sorted_users (include_prs_issues a) (include_zero a) in
  let out_path := "README.md" in
  let* _ := write_text out_path md in
  emit (Stdout (Wrote out_path)).

(** What [parser.parse_args()] (line 137) makes of the command line:
    the parsed arguments, or the help text on [--help], or a usage
    error; in the last two cases [argparse] prints and leaves through
    [sys.exit], with status 0 and 2. *)
Inductive parse_result : Type :=
| Help
| UsageError
| Parsed (a : args).

(** [main] from its first line: [main] above is what follows the
    parsing of the command line. *)
Definition main_from_command_line (cmd : parse_result) (file : participants_file)
  : M unit :=
  match cmd with
  | Help => let* _ := emit (Stdout ArgparseHelp) in raise (SystemExit 0)
  | UsageError => let* _ := emit (Stderr ArgparseError) in raise (SystemExit 2)
  | Parsed a => main a file
  end.

End Program.

(** ** Notions used in the statements *)

(** The test of lines 31-34: a forbidden response whose remaining quota
    is the text [0] and whose reset header is not empty. *)
Definition rate_limit_signal (resp : response) : bool :=
  (status_code resp =? 403) &&
  match header_get "X-RateLimit-Remaining" (headers resp),
        header_get "X-RateLimit-Reset" (headers resp) with
  | Some rem, Some reset => String.eqb rem "0" && negb (is_empty reset)
  | _, _ => false
  end.

Definition contributors_url (repo : string) : string :=
  "https://api.github.com/repos/" +:+ repo +:+ "/contributors".

Definition issues_url (repo : string) : string :=
  "https://api.github.com/repos/" +:+ repo +:+ "/issues".

Definition page_params (page : Z) : list (string * json) :=
  [("per_page", JInt PER_PAGE); ("page", JInt page)].

Definition issues_params (author : string) (page : Z) : list (string * json) :=
  [("per_page", JInt PER_PAGE); ("page", JInt page);
   ("state", JStr "all"); ("creator", JStr author)].



(** The keys of a dict kept as its items. *)
Definition keys {A} (d : list (string * A)) : list string := map fst d.

(** [counts.get(login, 0)]. *)
Definition count_of (counts : gmap string Z) (login : string) : Z :=
  default 0 (counts !! login).

Definition nonneg_counts (counts : gmap string Z) : Prop :=
  forall login n, counts !! login = Some n -> 0 <= n.

(** A contributor item whose [contributions] field, when it is an
    integer, is not negative. *)
Definition nonneg_contribution (c : json) : Prop :=
  match c with
  | JDict d =>
      match assoc_get "contributions" d with
      | Some (JInt n) => 0 <= n
      | _ => True
      end
  | _ => True
  end.

(** A response all of whose items are such. *)
Definition nonneg_page (resp : response) : Prop :=
  forall v items,
    json_body resp = Some v -> py_iter v = Some items ->
    Forall nonneg_contribution items.

(** The accumulated total of a participant (line 185). *)
Definition total_of (cc pc ic : gmap string Z) (login : string) : Z :=
  count_of cc login + count_of pc login + count_of ic login.

(** The order of a list sorted with [reverse=True] under [key]. *)
Definition key_ge {A} (key : A -> Z) (x y : A) : Prop := key y <= key x.

Definition user_url (login : string) : string := "https://api.github.com/users/" +:+ login.

(** The row of a user in the layout the arguments select. *)
Definition row_of (repr : json -> string) (a : args) : Z -> string -> user_data -> string :=
  if include_prs_issues a then row_prs_issues repr else row_commits repr.

(** What [main] does after the sort: [after] is [before] with the table
    of [sorted_users] written to [README.md] and the last message
    printed. *)
Definition wrote_table (repr : json -> string) (a : args)
    (sorted_users : list (string * user_data)) (before after : env) : Prop :=
  after = log (Stdout (Wrote "README.md"))
            (log (WriteFile "README.md"
                    (String.concat newline
                       (table_lines repr sorted_users (include_prs_issues a))))
               before).

(** ** Sample data *)

(** A system that carries out every sleep the interpreter accepts and
    every write. *)
#[export] Instance willing : Platform :=
  {| os_sleeps := fun _ _ => true; os_writes := fun _ _ => Written |}.

(** A system that refuses to sleep longer than an hour. *)
Definition restless : Platform :=
  {| os_sleeps := fun _ secs => secs <=? 3600; os_writes := fun _ _ => Written |}.

(** A system on which no file can be opened for writing, and one on
    which every write fails after the open. *)
Definition read_only : Platform :=
  {| os_sleeps := fun _ _ => true; os_writes := fun _ _ => OpenFails |}.

Definition full_disk : Platform :=
  {| os_sleeps := fun _ _ => true; os_writes := fun _ _ => WriteFails false |}.

Definition limited (reset : string) : response :=
  {| status_code := 403;
     headers := [("X-RateLimit-Remaining", "0"); ("X-RateLimit-Reset", reset)];
     text := EmptyString;
     json_body := None |}.

(** The same with the header names in lower case. *)
Definition limited_lower_case (reset : string) : response :=
  {| status_code := 403;
     headers := [("x-ratelimit-remaining", "0"); ("x-ratelimit-reset", reset)];
     text := EmptyString;
     json_body := None |}.

Fixpoint nines (n : nat) : string :=
  match n with
  | O => EmptyString
  | S n' => String "9" (nines n')
  end.

Definition ok_page (items : list json) : response :=
  {| status_code := 200; headers := []; text := EmptyString;
     json_body := Some (JList items) |}.

Definition not_found : response :=
  {| status_code := 404; headers := []; text := "Not Found"; json_body := None |}.

Definition contributor (login : string) (n : Z) : json :=
  JDict [("login", JStr login); ("contributions", JInt n)].

Definition full_page (login : string) : list json :=
  repeat (contributor login 1) 100.

Definition noon : env := {| clock := 200; trace := [] |}.

Definition question_mark (v : json) : string := "?".

Definition three_participants : participants_file := Items ["alice"; "bob"; "carol"].

(** One contributors page for the single repository, then one failed
    profile lookup for each of the two participants with commits. *)
Definition short_run : list response :=
  [ok_page [contributor "alice" 3; contributor "bob" 5; contributor "eve" 9];
   not_found; not_found].

Definition one_repo (include_zero include_prs_issues : bool) : args :=
  {| include_zero := include_zero; include_prs_issues := include_prs_issues;
     repos := Some ["o/r"] |}.

Definition alice_data : user_data :=
  {| avatar := JNull; url := JStr "https://github.com/alice";
     commits := 3; prs := 2; issues := 4 |}.

(** A page whose only item carries a negative [contributions]. *)
Definition negative_run : list response := [ok_page [contributor "alice" (-3)]].

(** The environment an outcome ends in. *)
Definition final_env {A} (o : outcome A) : env :=
  match o with
  | Returned _ _ e => e
  | Raised _ e => e
  | Starved e => e
  end.

Definition short_run_end : env :=
  final_env (main None elements question_mark (one_repo false false)
               three_participants short_run noon).

Definition short_tally_end : env :=
  final_env (tally None elements (one_repo false false) three_participants short_run noon).

(** The commit count of [login] in the outcome of [tally]. *)
Definition commits_after
    (o : outcome (gset string * gmap string Z * gmap string Z * gmap string Z))
    (login : string) : option Z :=
  match o with
  | Returned (_, cc, _, _) _ _ => cc !! login
  | _ => None
  end.

(** ** Further notions *)

(** A response that [handle_rate_limit] answers at time [now] with a
    sleep of [wait] seconds: forbidden, remaining quota ["0"], a reset
    header that [int] reads, and a wait that the interpreter and the
    system accept. *)
Definition limit_response {pf : Platform} (now : Z) (resp : response) (wait : Z) : Prop :=
  status_code resp = 403 /\
  header_get "X-RateLimit-Remaining" (headers resp) = Some "0" /\
  exists reset reset_ts,
    header_get "X-RateLimit-Reset" (headers resp) = Some reset /\
    py_int_limited reset = Some reset_ts /\
    wait = Z.max 0 (reset_ts - now) + 2 /\
    wait <= MAX_SLEEP /\
    os_sleeps now wait = true.

(** Responses each of which is such at the time the one before has been
    slept out, starting at [now]. *)
Fixpoint limit_responses {pf : Platform} (now : Z) (rs : list response) : Prop :=
  match rs with
  | [] => True
  | resp :: rs' =>
      exists wait, limit_response now resp wait /\ limit_responses (now + wait) rs'
  end.

(** A successful response whose body is the list [items]. *)
Definition page_response (resp : response) (items : list json) : Prop :=
  status_code resp = 200 /\ json_body resp = Some (JList items).

(** A successful page of exactly [PER_PAGE] items. *)
Definition full_page_response (resp : response) (items : list json) : Prop :=
  page_response resp items /\ Z.of_nat (length items) = PER_PAGE.

(** The trace after [n] requests for the consecutive pages [page],
    [page + 1], ... of one URL. *)
Fixpoint requested (url : string) (hdrs : list (string * string))
    (params : Z -> list (string * json)) (page : Z) (n : nat) (before : list event)
  : list event :=
  match n with
  | O => before
  | S n' => requested url hdrs params (page + 1) n' (Get url hdrs (params page) :: before)
  end.

Definition is_dict (v : json) : bool :=
  match v with JDict _ => true | _ => false end.

(** An item of the issues listing that is a pull request (line 89). *)
Definition is_pull_request (it : json) : bool :=
  match it with
  | JDict d => truthy (default JNull (assoc_get "pull_request" d))
  | _ => false
  end.

Fixpoint count_where (p : json -> bool) (items : list json) : Z :=
  match items with
  | [] => 0
  | it :: items' => (if p it then 1 else 0) + count_where p items'
  end.

(** Contributor items as the API sends them, from logins and counts. *)
Definition contributor_items (entries : list (string * Z)) : list json :=
  map (fun entry => contributor (fst entry) (snd entry)) entries.

(** The contributions reported for [login] in a list of entries. *)
Fixpoint contributions_of (login : string) (entries : list (string * Z)) : Z :=
  match entries with
  | [] => 0
  | (l, n) :: entries' =>
      (if String.eqb l login then n else 0) + contributions_of login entries'
  end.

(** The files a trace records as written, most recent first. *)
Fixpoint files_written (evs : list event) : list (string * string) :=
  match evs with
  | [] => []
  | WriteFile path content :: evs' => (path, content) :: files_written evs'
  | _ :: evs' => files_written evs'
  end.

(** The files a trace records as opened for writing, whether the
    write succeeded or not, most recent first. *)
Fixpoint files_touched (evs : list event) : list string :=
  match evs with
  | [] => []
  | WriteFile path _ :: evs' => path :: files_touched evs'
  | Truncate path :: evs' => path :: files_touched evs'
  | _ :: evs' => files_touched evs'
  end.

(** The durations a trace records as slept, most recent first. *)
Fixpoint sleeps (evs : list event) : list Z :=
  match evs with
  | [] => []
  | Sleep secs :: evs' => secs :: sleeps evs'
  | _ :: evs' => sleeps evs'
  end.

(** The requests a trace records, most recent first. *)
Fixpoint requests (evs : list event) : list string :=
  match evs with
  | [] => []
  | Get url _ _ :: evs' => url :: requests evs'
  | _ :: evs' => requests evs'
  end.

(** Events other than a sleep and a file write. *)
Definition quiet (ev : event) : bool :=
  match ev with
  | Get _ _ _ | Stdout _ | Stderr _ => true
  | Sleep _ | WriteFile _ _ | Truncate _ => false
  end.

(** The elements of [l] whose key is [v], in their order in [l]. *)
Fixpoint with_key {A} (key : A -> Z) (v : Z) (l : list A) : list A :=
  match l with
  | [] => []
  | x :: l' => if key x =? v then x :: with_key key v l' else with_key key v l'
  end.

Definition is_exit (x : exn) : bool :=
  match x with SystemExit _ => true | _ => false end.

(** A computation that, from any responses and environment, ends in an
    environment related to the first by [R], and that raises no
    [SystemExit]. *)
Definition sound (R : env -> env -> Prop) {A} (m : M A) : Prop :=
  forall script e,
    R e (final_env (m script e)) /\
    forall x e', m script e = Raised x e' -> is_exit x = false.


(** The second environment continues the first: its trace extends the
    trace of the first, its clock is not earlier, and if all the sleeps
    of the first last two seconds or more, so do all of its own. *)
Definition runs_on (e e' : env) : Prop :=
  clock e <= clock e' /\
  (exists evs, trace e' = evs ++ trace e) /\
  (Forall (fun secs => 2 <= secs) (sleeps (trace e)) ->
   Forall (fun secs => 2 <= secs) (sleeps (trace e'))).

(** An item of a successful page among the responses [used]. *)
Definition from_successful_page (used : list response) (c : json) : Prop :=
  exists resp v items,
    In resp used /\ status_code resp = 200 /\
    json_body resp = Some v /\ py_iter v = Some items /\ In c items.

(** *** Further sample data *)

Definition three_full_pages : list response :=
  [ok_page (full_page "alice"); ok_page (full_page "bob"); ok_page (full_page "carol")].

Definition two_limits : list response := [limited "300"; limited "400"].

(** A profile without [html_url]. *)
Definition profile_page : response :=
  {| status_code := 200; headers := []; text := EmptyString;
     json_body := Some (JDict [("avatar_url", JStr "https://a/alice.png")]) |}.

(** A pull request, an issue, and an issue whose marker is null. *)
Definition issue_items : list json :=
  [JDict [("pull_request", JDict [("url", JStr "u")])];
   JDict [("title", JStr "t")];
   JDict [("pull_request", JNull)]].

Definition after_one_limit : env :=
  {| clock := 302; trace := [Sleep 102; Stdout (RateLimitReached 102)] |}.

Definition limit_then_failure : list response := [limited "300"; not_found; ok_page []].

Definition limit_then_failure_end : env :=
  final_env (fetch_contributors_for_repo None "o/r" limit_then_failure noon).

(** ** The embedding on small inputs *)

Example py_int_plain : py_int "1700000000" = Some 1700000000.
Proof. reflexivity. Qed.

Example py_int_spaces_sign_groups : py_int " -1_000 " = Some (-1000).
Proof. reflexivity. Qed.

Example py_int_rejects :
  map py_int [EmptyString; "soon"; "1__0"; "_1"; "1_"; "+-5"; "- 5"] = repeat None 7.
Proof. reflexivity. Qed.

Example py_str_int_examples : map py_str_int [0; 7; -12; 100] = ["0"; "7"; "-12"; "100"].
Proof. reflexivity. Qed.

(** Equal keys keep their order, as with [reverse=True] in Python. *)
Example py_sorted_reverse_stable :
  py_sorted_reverse snd [("a", 1); ("b", 2); ("c", 1); ("d", 2)]
  = [("b", 2); ("d", 2); ("a", 1); ("c", 1)].
Proof. reflexivity. Qed.

Example dict_set_overwrites_in_place :
  dict_set "a" 9 [("a", 1); ("b", 2)] = [("a", 9); ("b", 2)]
  /\ dict_set "c" 3 [("a", 1); ("b", 2)] = [("a", 1); ("b", 2); ("c", 3)].
Proof. split; reflexivity. Qed.

Example row_prs_issues_example :
  row_prs_issues question_mark 1 "alice" alice_data
  = "| 1 |  | [alice](https://github.com/alice) | 3 | 2 | 4 | 9 |".
Proof. reflexivity. Qed.

Example row_commits_example :
  row_commits question_mark 2 "alice" alice_data
  = "| 2 |  | [alice](https://github.com/alice) | 3 |".
Proof. reflexivity. Qed.

(** A reset header that is no integer makes [int(reset)] raise. *)
Example handle_rate_limit_raises :
  handle_rate_limit (limited "soon") noon = inl (ValueError, noon).
Proof. vm_compute. reflexivity. Qed.

(** The white space of Latin-1 around the digits is accepted, the
    separators of ASCII that are no white space for [int] are not. *)
Example py_int_latin1_space :
  py_int (String (ascii_of_nat 160) "300" +:+ String (ascii_of_nat 133) EmptyString)
    = Some 300
  /\ py_int (String (ascii_of_nat 28) "300") = None.
Proof. split; reflexivity. Qed.

Example py_int_limited_digits :
  py_int_limited (nines 4300) = py_int (nines 4300)
  /\ py_int_limited (nines 4301) = None
  /\ py_int_limited (String "0" (nines 4300)) = None.
Proof. repeat split; vm_compute; reflexivity. Qed.

(** The names of the headers are looked up whatever their case. *)
Example handle_rate_limit_lower_case :
  handle_rate_limit (limited_lower_case "300") noon
    = inr (true, {| clock := 302; trace := [Sleep 102; Stdout (RateLimitReached 102)] |}).
Proof. vm_compute. reflexivity. Qed.

(** Asked for the help, or given a command line it refuses, [main]
    leaves before anything else is done. *)
Example main_help :
  main_from_command_line None elements question_mark Help three_participants short_run noon
    = Raised (SystemExit 0) {| clock := 200; trace := [Stdout ArgparseHelp] |}
  /\ main_from_command_line None elements question_mark UsageError three_participants
       short_run noon
    = Raised (SystemExit 2) {| clock := 200; trace := [Stderr ArgparseError] |}.
Proof. split; reflexivity. Qed.

(** On a system that refuses the sleep, the handler raises after its
    message. *)
Example handle_rate_limit_refused_sleep :
  @handle_rate_limit restless (limited "9000") noon
    = inl (OSError, {| clock := 200; trace := [Stdout (RateLimitReached 8802)] |}).
Proof. vm_compute. reflexivity. Qed.

(** The short run where the output file cannot be opened, and where the
    write fails after the open: both raise [OSError], the second after
    the file was emptied. *)
Example main_write_fails :
  files_touched
    (trace (final_env (@main read_only None elements question_mark (one_repo false false)
                         three_participants short_run noon))) = []
  /\ files_touched
       (trace (final_env (@main full_disk None elements question_mark (one_repo false false)
                            three_participants short_run noon))) = ["README.md"]
  /\ files_written
       (trace (final_env (@main full_disk None elements question_mark (one_repo false false)
                            three_participants short_run noon))) = [].
Proof. repeat split; vm_compute; reflexivity. Qed.

(** A reset time in milliseconds asks for a sleep [time.sleep] refuses. *)
Example handle_rate_limit_overflow :
  handle_rate_limit (limited "1700000000000") noon
    = inl (OverflowError,
           {| clock := 200; trace := [Stdout (RateLimitReached 1699999999802)] |}).
Proof. vm_compute. reflexivity. Qed.

(** Without a page to read, the loop is still waiting. *)
Example fetch_contributors_starved :
  fetch_contributors_for_repo None "o/r" [limited "300"] noon
  = Starved {| clock := 302;
               trace := [Get (contributors_url "o/r") (HEADERS None) (page_params 1);
                         Sleep 102; Stdout (RateLimitReached 102);
                         Get (contributors_url "o/r") (HEADERS None) (page_params 1)] |}.
Proof. vm_compute. reflexivity. Qed.

(** A contributor who is no participant is not counted. *)
Example count_contributor_outsider :
  count_contributor {["alice"]} (contributor "eve" 9) ∅ = inr ∅.
Proof. vm_compute. reflexivity. Qed.

Example count_contributor_text :
  count_contributor {["alice"]}
    (JDict [("login", JStr "alice"); ("contributions", JStr "many")]) ∅ = inl TypeError.
Proof. vm_compute. reflexivity. Qed.

(** ** Printing and reading integers *)














(** ** The rate-limit handler *)

Lemma py_int_nonempty (s : string) (n : Z) : py_int s = Some n -> is_empty s = false.
Proof. destruct s; [discriminate | reflexivity]. Qed.

Lemma py_int_limited_some (s : string) (n : Z) :
  py_int_limited s = Some n -> py_int s = Some n /\ is_empty s = false.
Proof.
  unfold py_int_limited. destruct (count_digits s <=? MAX_STR_DIGITS)%nat; [|discriminate].
  intros H. split; [exact H | now apply py_int_nonempty in H].
Qed.

Lemma MAX_SLEEP_fits_str (wait : Z) : 0 <= wait -> wait <= MAX_SLEEP -> fits_str wait = true.
Proof.
  intros H0 Hmax. unfold fits_str. apply Z.ltb_lt. rewrite Z.abs_eq by exact H0.
  assert (Hlim : MAX_SLEEP < 10 ^ Z.of_nat MAX_STR_DIGITS) by (vm_compute; reflexivity).
  lia.
Qed.

Section Handler.

Context {pf : Platform}.

Lemma time_sleep_accepted (wait : Z) (e : env) :
  0 <= wait -> wait <= MAX_SLEEP -> os_sleeps (clock e) wait = true ->
  time_sleep wait e = inr (sleep wait e).
Proof.
  intros H0 Hmax Hos. unfold time_sleep.
  destruct (Z.ltb_spec MAX_SLEEP (Z.abs wait)); [lia|].
  destruct (Z.ltb_spec wait 0); [lia|]. now rewrite Hos.
Qed.

Lemma time_sleep_inr (wait : Z) (e e' : env) :
  time_sleep wait e = inr e' ->
  0 <= wait /\ wait <= MAX_SLEEP /\ os_sleeps (clock e) wait = true /\ e' = sleep wait e.
Proof.
  unfold time_sleep.
  destruct (Z.ltb_spec MAX_SLEEP (Z.abs wait)); [discriminate|].
  destruct (Z.ltb_spec wait 0); [discriminate|].
  destruct (os_sleeps (clock e) wait); [|discriminate]. intros [= <-].
  repeat split; auto; lia.
Qed.

Lemma time_sleep_inl (wait : Z) (e : env) (x : exn) (e' : env) :
  time_sleep wait e = inl (x, e') -> is_exit x = false /\ e' = e.
Proof.
  unfold time_sleep.
  destruct (MAX_SLEEP <? Z.abs wait); [now intros [= <- <-]|].
  destruct (wait <? 0); [now intros [= <- <-]|].
  destruct (os_sleeps (clock e) wait); [discriminate | now intros [= <- <-]].
Qed.

Lemma handle_rate_limit_no_signal (resp : response) (e : env) :
  rate_limit_signal resp = false -> handle_rate_limit resp e = inr (false, e).
Proof.
  unfold rate_limit_signal, handle_rate_limit.
  destruct (status_code resp =? 403); [simpl | reflexivity].
  destruct (header_get "X-RateLimit-Remaining" (headers resp)) as [rem|]; [|reflexivity].
  destruct (header_get "X-RateLimit-Reset" (headers resp)) as [reset|]; [|reflexivity].
  now intros ->.
Qed.

Lemma handle_rate_limit_signal (resp : response) (e : env) (reset : string) (reset_ts : Z) :
  status_code resp = 403 ->
  header_get "X-RateLimit-Remaining" (headers resp) = Some "0" ->
  header_get "X-RateLimit-Reset" (headers resp) = Some reset ->
  py_int_limited reset = Some reset_ts ->
  Z.max 0 (reset_ts - clock e) + 2 <= MAX_SLEEP ->
  os_sleeps (clock e) (Z.max 0 (reset_ts - clock e) + 2) = true ->
  handle_rate_limit resp e =
    inr (true, sleep (Z.max 0 (reset_ts - clock e) + 2)
                 (log (Stdout (RateLimitReached (Z.max 0 (reset_ts - clock e) + 2))) e)).
Proof.
  intros Hs Hrem Hreset Hint Hmax Hos. unfold handle_rate_limit.
  destruct (py_int_limited_some _ _ Hint) as [_ Hne].
  rewrite Hs, Hrem, Hreset, Hint, Hne. simpl.
  rewrite MAX_SLEEP_fits_str by (try exact Hmax; lia).
  rewrite time_sleep_accepted by (try exact Hmax; try exact Hos; lia).
  reflexivity.
Qed.

Lemma handle_rate_limit_true_inv (resp : response) (e e' : env) :
  handle_rate_limit resp e = inr (true, e') ->
  exists reset reset_ts,
    status_code resp = 403 /\
    header_get "X-RateLimit-Remaining" (headers resp) = Some "0" /\
    header_get "X-RateLimit-Reset" (headers resp) = Some reset /\
    py_int_limited reset = Some reset_ts /\
    Z.max 0 (reset_ts - clock e) + 2 <= MAX_SLEEP /\
    os_sleeps (clock e) (Z.max 0 (reset_ts - clock e) + 2) = true /\
    e' = sleep (Z.max 0 (reset_ts - clock e) + 2)
           (log (Stdout (RateLimitReached (Z.max 0 (reset_ts - clock e) + 2))) e).
Proof.
  unfold handle_rate_limit.
  destruct (status_code resp =? 403) eqn:Hs; [|discriminate].
  destruct (header_get "X-RateLimit-Remaining" (headers resp)) as [rem|]; [|discriminate].
  destruct (header_get "X-RateLimit-Reset" (headers resp)) as [reset|]; [|discriminate].
  destruct (String.eqb_spec rem "0") as [->|]; [|discriminate].
  destruct (is_empty reset); [discriminate|]. simpl.
  destruct (py_int_limited reset) as [reset_ts|] eqn:Hint; [|discriminate].
  destruct (fits_str _); [|discriminate].
  destruct (time_sleep _ _) as [[x ex]|e1] eqn:Hsleep; [discriminate|].
  intros [= <-]. apply time_sleep_inr in Hsleep as (_ & Hmax & Hos & ->).
  exists reset, reset_ts. apply Z.eqb_eq in Hs. auto 8.
Qed.

Lemma handle_rate_limit_false_inv (resp : response) (e e' : env) :
  handle_rate_limit resp e = inr (false, e') ->
  rate_limit_signal resp = false /\ e' = e.
Proof.
  unfold handle_rate_limit, rate_limit_signal.
  destruct (status_code resp =? 403); [simpl | now intros [= <-]].
  destruct (header_get "X-RateLimit-Remaining" (headers resp)) as [rem|];
    [|now intros [= <-]].
  destruct (header_get "X-RateLimit-Reset" (headers resp)) as [reset|];
    [|now intros [= <-]].
  destruct (String.eqb rem "0" && negb (is_empty reset)); [|now intros [= <-]].
  destruct (py_int_limited reset); [|discriminate].
  destruct (fits_str _); [|discriminate].
  destruct (time_sleep _ _) as [[x ex]|e1]; discriminate.
Qed.

(** When the handler raises, it has printed at most its message, and the
    exception is no exit. *)
Lemma handle_rate_limit_raised_inv (resp : response) (e : env) (x : exn) (e' : env) :
  handle_rate_limit resp e = inl (x, e') ->
  rate_limit_signal resp = true /\ is_exit x = false /\
  (e' = e \/ exists wait, e' = log (Stdout (RateLimitReached wait)) e).
Proof.
  unfold handle_rate_limit, rate_limit_signal.
  destruct (status_code resp =? 403); [simpl | discriminate].
  destruct (header_get "X-RateLimit-Remaining" (headers resp)) as [rem|]; [|discriminate].
  destruct (header_get "X-RateLimit-Reset" (headers resp)) as [reset|]; [|discriminate].
  destruct (String.eqb rem "0" && negb (is_empty reset)); [|discriminate].
  destruct (py_int_limited reset) as [ts|]; [|intros [= <- <-]; auto].
  destruct (fits_str _); [|intros [= <- <-]; auto].
  destruct (time_sleep _ _) as [[y ey]|e1] eqn:Hsleep; [|discriminate].
  intros [= <- <-]. apply time_sleep_inl in Hsleep as [Hx ->].
  split; [reflexivity|]. split; [exact Hx|]. right. eauto.
Qed.

End Handler.

(** C7, as the code has it.  [handle_rate_limit] answers [True] exactly
    for a response with status 403 whose headers, looked up whatever the
    case of their names, give the remaining quota ["0"] and a reset time
    that [int] reads, and whose wait [max(0, reset - now) + 2] is one
    [time.sleep] accepts; it has then printed and slept that wait: the
    wait is clamped at zero before the two seconds are added.  It answers
    [False] exactly when the test of lines 31-34 fails, and then nothing
    is printed and nothing is slept. *)
Theorem handle_rate_limit_spec {pf : Platform} (resp : response) (e : env) :
  (forall e', handle_rate_limit resp e = inr (true, e') <->
     exists reset reset_ts,
       status_code resp = 403 /\
       header_get "X-RateLimit-Remaining" (headers resp) = Some "0" /\
       header_get "X-RateLimit-Reset" (headers resp) = Some reset /\
       py_int_limited reset = Some reset_ts /\
       Z.max 0 (reset_ts - clock e) + 2 <= MAX_SLEEP /\
       os_sleeps (clock e) (Z.max 0 (reset_ts - clock e) + 2) = true /\
       e' = sleep (Z.max 0 (reset_ts - clock e) + 2)
              (log (Stdout (RateLimitReached (Z.max 0 (reset_ts - clock e) + 2))) e))
  /\
  (forall e', handle_rate_limit resp e = inr (false, e') <->
     rate_limit_signal resp = false /\ e' = e).
Proof.
  split; intros e'; split.
  - apply handle_rate_limit_true_inv.
  - intros (reset & reset_ts & Hs & Hrem & Hreset & Hint & Hmax & Hos & ->).
    now apply handle_rate_limit_signal with (reset := reset).
  - apply handle_rate_limit_false_inv.
  - intros [H ->]. now apply handle_rate_limit_no_signal.
Qed.

(** C7 as stated fails: with the reset time 100 seconds in the past the
    handler sleeps 2 seconds, with it 100 seconds ahead it sleeps 102
    seconds, and no fixed buffer makes both equal [reset - now + buffer]. *)
Lemma handle_rate_limit_wait_is_clamped :
  handle_rate_limit (limited "100") {| clock := 200; trace := [] |}
    = inr (true, {| clock := 202; trace := [Sleep 2; Stdout (RateLimitReached 2)] |})
  /\ handle_rate_limit (limited "300") {| clock := 200; trace := [] |}
    = inr (true, {| clock := 302; trace := [Sleep 102; Stdout (RateLimitReached 102)] |})
  /\ ~ (exists buffer : Z, 2 = 100 - 200 + buffer /\ 102 = 300 - 200 + buffer).
Proof.
  split; [vm_compute; reflexivity|].
  split; [vm_compute; reflexivity|].
  intros [buffer [H1 H2]]. lia.
Qed.

(** ** The pagination loops *)

Section Pagination.

Context {pf : Platform}.
Variable TOKEN : option string.

(** One turn of the contributors loop, on the response it receives. *)
Lemma contributors_loop_turn (repo : string) (resp : response) (rest : list response)
    (page : Z) (contributors : list json) (e : env) :
  contributors_loop TOKEN repo (resp :: rest) page contributors e =
    let e0 := log (Get (contributors_url repo) (HEADERS TOKEN) (page_params page)) e in
    match handle_rate_limit resp e0 with
    | inl (x, e1) => Raised x e1
    | inr (true, e1) => contributors_loop TOKEN repo rest page contributors e1
    | inr (false, e1) =>
        if negb (status_code resp =? 200) then
          Returned contributors rest
            (log (Stderr (ContributorsFailed repo page (status_code resp) (text resp))) e1)
        else
          match json_body resp with
          | None => Raised JSONDecodeError e1
          | Some page_items =>
              if negb (truthy page_items) then Returned contributors rest e1
              else
                match py_iter page_items, py_len page_items with
                | Some items, Some n =>
                    if n <? PER_PAGE then Returned (contributors ++ items) rest e1
                    else contributors_loop TOKEN repo rest (page + 1) (contributors ++ items) e1
                | _, _ => Raised TypeError e1
                end
          end
    end.
Proof. reflexivity. Qed.

Lemma issues_loop_turn (repo author : string) (resp : response) (rest : list response)
    (page issues_count prs_count : Z) (e : env) :
  issues_loop TOKEN repo author (resp :: rest) page issues_count prs_count e =
    let e0 := log (Get (issues_url repo) (HEADERS TOKEN) (issues_params author page)) e in
    match handle_rate_limit resp e0 with
    | inl (x, e1) => Raised x e1
    | inr (true, e1) => issues_loop TOKEN repo author rest page issues_count prs_count e1
    | inr (false, e1) =>
        if negb (status_code resp =? 200) then
          Returned (issues_count, prs_count) rest
            (log (Stderr (IssuesFailed author repo page (status_code resp) (text resp))) e1)
        else
          match json_body resp with
          | None => Raised JSONDecodeError e1
          | Some items =>
              if negb (truthy items) then Returned (issues_count, prs_count) rest e1
              else
                match py_iter items, py_len items with
                | Some its, Some n =>
                    match count_items its issues_count prs_count with
                    | inl x => Raised x e1
                    | inr (i, p) =>
                        if n <? PER_PAGE then Returned (i, p) rest e1
                        else issues_loop TOKEN repo author rest (page + 1) i p e1
                    end
                | _, _ => Raised TypeError e1
                end
          end
    end.
Proof. reflexivity. Qed.

Lemma success_no_signal (resp : response) :
  status_code resp = 200 -> rate_limit_signal resp = false.
Proof. unfold rate_limit_signal. now intros ->. Qed.

(** A successful page that is a non-empty list: its items are appended,
    and the loop goes on to the next page exactly when the page is full. *)
Lemma contributors_loop_page (repo : string) (resp : response) (rest : list response)
    (page : Z) (contributors items : list json) (e : env) :
  status_code resp = 200 ->
  json_body resp = Some (JList items) ->
  items <> [] ->
  contributors_loop TOKEN repo (resp :: rest) page contributors e =
    let e1 := log (Get (contributors_url repo) (HEADERS TOKEN) (page_params page)) e in
    if Z.of_nat (length items) <? PER_PAGE
    then Returned (contributors ++ items) rest e1
    else contributors_loop TOKEN repo rest (page + 1) (contributors ++ items) e1.
Proof.
  intros Hs Hb Hne. rewrite contributors_loop_turn. cbv zeta.
  rewrite handle_rate_limit_no_signal by now apply success_no_signal.
  rewrite Hs, Hb. simpl negb. cbv iota.
  destruct items as [|c items]; [congruence|]. reflexivity.
Qed.

(** A successful page that is the empty list ends the loop. *)
Lemma contributors_loop_empty_page (repo : string) (resp : response) (rest : list response)
    (page : Z) (contributors : list json) (e : env) :
  status_code resp = 200 ->
  json_body resp = Some (JList []) ->
  contributors_loop TOKEN repo (resp :: rest) page contributors e =
    Returned contributors rest
      (log (Get (contributors_url repo) (HEADERS TOKEN) (page_params page)) e).
Proof.
  intros Hs Hb. rewrite contributors_loop_turn. cbv zeta.
  rewrite handle_rate_limit_no_signal by now apply success_no_signal.
  rewrite Hs, Hb. reflexivity.
Qed.

(** C5.  Two successful pages of exactly [PER_PAGE] items each, then a
    successful empty page: [fetch_contributors_for_repo] returns, with
    the items of the first page followed by those of the second, after
    asking for pages 1, 2 and 3 and consuming three responses. *)
Theorem fetch_contributors_two_full_pages (repo : string) (r1 r2 r3 : response)
    (p1 p2 : list json) (rest : list response) (e : env) :
  status_code r1 = 200 -> json_body r1 = Some (JList p1) -> Z.of_nat (length p1) = PER_PAGE ->
  status_code r2 = 200 -> json_body r2 = Some (JList p2) -> Z.of_nat (length p2) = PER_PAGE ->
  status_code r3 = 200 -> json_body r3 = Some (JList []) ->
  fetch_contributors_for_repo TOKEN repo (r1 :: r2 :: r3 :: rest) e =
    Returned (p1 ++ p2) rest
      {| clock := clock e;
         trace := Get (contributors_url repo) (HEADERS TOKEN) (page_params 3) ::
                  Get (contributors_url repo) (HEADERS TOKEN) (page_params 2) ::
                  Get (contributors_url repo) (HEADERS TOKEN) (page_params 1) :: trace e |}.
Proof.
  intros Hs1 Hb1 Hl1 Hs2 Hb2 Hl2 Hs3 Hb3.
  unfold fetch_contributors_for_repo.
  assert (Hne : forall p : list json, Z.of_nat (length p) = PER_PAGE -> p <> []).
  { intros p Hp ->. discriminate Hp. }
  rewrite (contributors_loop_page repo r1 _ 1 [] p1 e Hs1 Hb1 (Hne _ Hl1)).
  cbv zeta. rewrite Hl1, Z.ltb_irrefl.
  rewrite (contributors_loop_page repo r2 _ _ _ p2 _ Hs2 Hb2 (Hne _ Hl2)).
  cbv zeta. rewrite Hl2, Z.ltb_irrefl.
  rewrite (contributors_loop_empty_page repo r3 _ _ _ _ Hs3 Hb3).
  reflexivity.
Qed.

End Pagination.

Section RateLimitAndFailures.

Context {pf : Platform}.
Variable TOKEN : option string.

(** C6, as the code has it.  A rate-limited answer to the request for
    page [page] (status 403, remaining quota ["0"], a reset header that
    [int] reads) whose wait [max(0, reset - now) + 2] is one [time.sleep]
    accepts makes the loop sleep and ask for the same page again, with
    the page counter and the accumulated items unchanged; this holds for
    the contributors loop and for the issues loop.  When the next answer
    is a successful non-empty page, its items are appended once, and the
    loop ends on a short page or goes on with page [page + 1]: the
    requests made are page, sleep, page. *)
Theorem rate_limit_retries_same_page (repo author : string) (limited_resp : response)
    (page : Z) (e : env) (reset : string) (reset_ts : Z) :
  status_code limited_resp = 403 ->
  header_get "X-RateLimit-Remaining" (headers limited_resp) = Some "0" ->
  header_get "X-RateLimit-Reset" (headers limited_resp) = Some reset ->
  py_int_limited reset = Some reset_ts ->
  Z.max 0 (reset_ts - clock e) + 2 <= MAX_SLEEP ->
  os_sleeps (clock e) (Z.max 0 (reset_ts - clock e) + 2) = true ->
  let wait := Z.max 0 (reset_ts - clock e) + 2 in
  let request := Get (contributors_url repo) (HEADERS TOKEN) (page_params page) in
  let after_sleep (first : event) :=
    {| clock := clock e + wait;
       trace := Sleep wait :: Stdout (RateLimitReached wait) :: first :: trace e |} in
  (forall rest contributors,
     contributors_loop TOKEN repo (limited_resp :: rest) page contributors e =
     contributors_loop TOKEN repo rest page contributors (after_sleep request))
  /\
  (forall success rest contributors items,
     status_code success = 200 ->
     json_body success = Some (JList items) ->
     items <> [] ->
     contributors_loop TOKEN repo (limited_resp :: success :: rest) page contributors e =
       let e2 := {| clock := clock e + wait;
                    trace := request :: Sleep wait :: Stdout (RateLimitReached wait) ::
                             request :: trace e |} in
       if Z.of_nat (length items) <? PER_PAGE
       then Returned (contributors ++ items) rest e2
       else contributors_loop TOKEN repo rest (page + 1) (contributors ++ items) e2)
  /\
  (forall rest issues_count prs_count,
     issues_loop TOKEN repo author (limited_resp :: rest) page issues_count prs_count e =
     issues_loop TOKEN repo author rest page issues_count prs_count
       (after_sleep (Get (issues_url repo) (HEADERS TOKEN) (issues_params author page)))).
Proof.
  intros Hs Hrem Hreset Hint Hmax Hos wait request after_sleep.
  assert (Hretry : forall rest contributors,
     contributors_loop TOKEN repo (limited_resp :: rest) page contributors e =
     contributors_loop TOKEN repo rest page contributors (after_sleep request)).
  { intros rest contributors. rewrite contributors_loop_turn. cbv zeta.
    now rewrite (handle_rate_limit_signal limited_resp
                   (log (Get (contributors_url repo) (HEADERS TOKEN) (page_params page)) e)
                   reset reset_ts Hs Hrem Hreset Hint Hmax Hos). }
  split; [exact Hretry|]. split.
  - intros success rest contributors items Hok Hbody Hne.
    rewrite Hretry.
    now rewrite (contributors_loop_page TOKEN repo success rest page contributors items _ Hok Hbody Hne).
  - intros rest issues_count prs_count. rewrite issues_loop_turn. cbv zeta.
    now rewrite (handle_rate_limit_signal limited_resp
                   (log (Get (issues_url repo) (HEADERS TOKEN) (issues_params author page)) e)
                   reset reset_ts Hs Hrem Hreset Hint Hmax Hos).
Qed.

(** C8.  A response that is not a success and not a rate-limit signal
    ends the loop at once: the contributors loop returns the items
    accumulated so far, the issues loop the two counts accumulated so
    far; a warning is printed, no exception is raised and the responses
    still to come are left for the rest of the run. *)
Theorem failed_page_keeps_partial_results (repo author : string) (resp : response)
    (rest : list response) (page : Z) (contributors : list json)
    (issues_count prs_count : Z) (e : env) :
  status_code resp <> 200 ->
  rate_limit_signal resp = false ->
  contributors_loop TOKEN repo (resp :: rest) page contributors e =
    Returned contributors rest
      (log (Stderr (ContributorsFailed repo page (status_code resp) (text resp)))
         (log (Get (contributors_url repo) (HEADERS TOKEN) (page_params page)) e))
  /\
  issues_loop TOKEN repo author (resp :: rest) page issues_count prs_count e =
    Returned (issues_count, prs_count) rest
      (log (Stderr (IssuesFailed author repo page (status_code resp) (text resp)))
         (log (Get (issues_url repo) (HEADERS TOKEN) (issues_params author page)) e)).
Proof.
  intros Hs Hsig. apply Z.eqb_neq in Hs. split.
  - rewrite contributors_loop_turn. cbv zeta.
    rewrite (handle_rate_limit_no_signal _ _ Hsig), Hs. reflexivity.
  - rewrite issues_loop_turn. cbv zeta.
    rewrite (handle_rate_limit_no_signal _ _ Hsig), Hs. reflexivity.
Qed.

(** C9, as the code has it.  When the profile lookup ends on a response
    that is not a success, [get_user_meta] returns the fallback record:
    an empty avatar and the URL [https://github.com/<login>]; it returns,
    and raises nothing.  The lookup ends on its first response when that
    one is no rate-limit signal, and on its second response after one
    rate-limited answer whose reset time [int] reads and whose wait
    [time.sleep] accepts. *)
Theorem get_user_meta_falls_back (login : string) :
  fallback_meta login =
    {| meta_avatar := JStr EmptyString; meta_url := JStr ("https://github.com/" +:+ login) |}
  /\
  (forall script e resp rest e',
     profile_response TOKEN login script e = Returned resp rest e' ->
     status_code resp <> 200 ->
     get_user_meta TOKEN login script e = Returned (fallback_meta login) rest e')
  /\
  (forall resp rest e,
     status_code resp <> 200 ->
     rate_limit_signal resp = false ->
     get_user_meta TOKEN login (resp :: rest) e =
       Returned (fallback_meta login) rest (log (Get (user_url login) (HEADERS TOKEN) []) e))
  /\
  (forall limited_resp resp rest e reset reset_ts,
     status_code limited_resp = 403 ->
     header_get "X-RateLimit-Remaining" (headers limited_resp) = Some "0" ->
     header_get "X-RateLimit-Reset" (headers limited_resp) = Some reset ->
     py_int_limited reset = Some reset_ts ->
     Z.max 0 (reset_ts - clock e) + 2 <= MAX_SLEEP ->
     os_sleeps (clock e) (Z.max 0 (reset_ts - clock e) + 2) = true ->
     status_code resp <> 200 ->
     let wait := Z.max 0 (reset_ts - clock e) + 2 in
     get_user_meta TOKEN login (limited_resp :: resp :: rest) e =
       Returned (fallback_meta login) rest
         {| clock := clock e + wait;
            trace := Get (user_url login) (HEADERS TOKEN) [] :: Sleep wait ::
                     Stdout (RateLimitReached wait) ::
                     Get (user_url login) (HEADERS TOKEN) [] :: trace e |}).
Proof.
  split; [reflexivity|]. split; [|split].
  - intros script e resp rest e' Hp Hs. apply Z.eqb_neq in Hs.
    unfold get_user_meta, bind at 1. rewrite Hp, Hs. reflexivity.
  - intros resp rest e Hs Hsig. apply Z.eqb_neq in Hs.
    cbv [get_user_meta profile_response bind requests_get rate_limited].
    rewrite (handle_rate_limit_no_signal _ _ Hsig).
    cbv [ret]. rewrite Hs. reflexivity.
  - intros limited_resp resp rest e reset reset_ts Hl Hrem Hreset Hint Hmax Hos Hs wait.
    apply Z.eqb_neq in Hs.
    cbv [get_user_meta profile_response bind requests_get rate_limited].
    rewrite (handle_rate_limit_signal _ _ reset reset_ts Hl Hrem Hreset Hint)
      by first [exact Hmax | exact Hos].
    rewrite Hs. reflexivity.
Qed.

End RateLimitAndFailures.

(** ** Reasoning about computations *)

Lemma bind_returned {A B} (m : M A) (k : A -> M B) script e b rest e' :
  bind m k script e = Returned b rest e' ->
  exists a rest1 e1, m script e = Returned a rest1 e1 /\ k a rest1 e1 = Returned b rest e'.
Proof.
  unfold bind. destruct (m script e) as [a rest1 e1| |]; [|discriminate ..].
  intros H. now exists a, rest1, e1.
Qed.

Lemma ret_returned {A} (a b : A) script e rest e' :
  ret a script e = Returned b rest e' -> b = a /\ rest = script /\ e' = e.
Proof. unfold ret. now intros [= <- <- <-]. Qed.

Lemma write_text_returned {pf : Platform} (path content : string) script e
    (u : unit) rest e' :
  write_text path content script e = Returned u rest e' ->
  os_writes path content = Written /\ rest = script /\ e' = log (WriteFile path content) e.
Proof.
  unfold write_text. destruct (os_writes path content) as [| |unencodable];
    [|discriminate..].
  now intros [= <- <-].
Qed.


Lemma emit_returned (ev : event) script e (u : unit) rest e' :
  emit ev script e = Returned u rest e' -> rest = script /\ e' = log ev e.
Proof. unfold emit. now intros [= <- <-]. Qed.

Lemma lift_returned {A} (r : exn + A) script e (a : A) rest e' :
  lift r script e = Returned a rest e' -> r = inr a /\ rest = script /\ e' = e.
Proof.
  destruct r as [x|a0]; simpl; [discriminate|].
  unfold ret. now intros [= <- <- <-].
Qed.

(** Splits a hypothesis [bind m k script e = Returned ...]. *)
Ltac bind_inv H :=
  let a := fresh "a" in let r := fresh "rest" in let e := fresh "e" in
  let H1 := fresh H "_m" in
  apply bind_returned in H as (a & r & e & H1 & H).

Tactic Notation "bind_split" hyp(H) "as" ident(a) ident(r) ident(e) ident(Hm) :=
  apply bind_returned in H as (a & r & e & Hm & H).

(** A property of the loop state and of the responses to come that every
    turn of a [for] loop keeps holds when the loop returns. *)
Lemma for_each_inv {A S} (I : S -> list response -> Prop) (body : A -> S -> M S) :
  (forall x s script e s' rest e',
     I s script -> body x s script e = Returned s' rest e' -> I s' rest) ->
  forall l s script e s' rest e',
    I s script -> for_each l body s script e = Returned s' rest e' -> I s' rest.
Proof.
  intros Hbody l. induction l as [|x l IH]; simpl; intros s script e s' rest e' Hs H.
  - apply ret_returned in H as (-> & -> & _). exact Hs.
  - bind_inv H. eapply IH; [|exact H]. eapply Hbody; eauto.
Qed.

(** The same with the element being visited known to be in the list. *)
Lemma for_each_inv_in {A S} (I : S -> list response -> Prop) (body : A -> S -> M S)
    (l : list A) :
  (forall x s script e s' rest e',
     In x l -> I s script -> body x s script e = Returned s' rest e' -> I s' rest) ->
  forall s script e s' rest e',
    I s script -> for_each l body s script e = Returned s' rest e' -> I s' rest.
Proof.
  induction l as [|x l IH]; simpl; intros Hbody s script e s' rest e' Hs H.
  - apply ret_returned in H as (-> & -> & _). exact Hs.
  - bind_inv H. eapply IH; [| |exact H].
    + intros y; intros. eapply Hbody; eauto.
    + eapply Hbody; eauto.
Qed.

(** ** Sorting *)

Section Sorting.

Context {A : Type} (key : A -> Z).

Lemma insert_desc_perm (x : A) (l : list A) : Permutation (x :: l) (insert_desc key x l).
Proof.
  induction l as [|y l IH]; simpl; [reflexivity|].
  destruct (key y <=? key x); [reflexivity|].
  rewrite perm_swap. now apply perm_skip.
Qed.

Lemma py_sorted_reverse_perm (l : list A) : Permutation l (py_sorted_reverse key l).
Proof.
  induction l as [|x l IH]; simpl; [reflexivity|].
  rewrite <- insert_desc_perm. now apply perm_skip.
Qed.

Lemma insert_desc_sorted (x : A) (l : list A) :
  StronglySorted (key_ge key) l -> StronglySorted (key_ge key) (insert_desc key x l).
Proof.
  induction 1 as [|y l Hl IH Hy]; simpl.
  - constructor; constructor.
  - destruct (Z.leb_spec (key y) (key x)) as [Hle|Hgt].
    + constructor; [now constructor|].
      constructor; [exact Hle|].
      eapply Forall_impl; [exact Hy|]. unfold key_ge. intros z Hz. lia.
    + constructor; [exact IH|].
      eapply Permutation_Forall; [apply insert_desc_perm|].
      constructor; [unfold key_ge; lia | exact Hy].
Qed.

Lemma py_sorted_reverse_sorted (l : list A) :
  StronglySorted (key_ge key) (py_sorted_reverse key l).
Proof.
  induction l as [|x l IH]; simpl; [constructor|].
  now apply insert_desc_sorted.
Qed.

(** In a strongly sorted list, an earlier element has the larger key. *)
Lemma sorted_lookup_ge (l : list A) (i j : nat) (x y : A) :
  StronglySorted (key_ge key) l -> (i <= j)%nat ->
  l !! i = Some x -> l !! j = Some y -> key y <= key x.
Proof.
  intros Hl. revert i j x y.
  induction Hl as [|z l Hl IH Hz]; intros i j x y Hij Hi Hj.
  - discriminate.
  - destruct i as [|i], j as [|j]; simpl in *.
    + injection Hi as <-. injection Hj as <-. lia.
    + injection Hi as <-. rewrite Forall_forall in Hz.
      apply Hz. eapply list_elem_of_lookup_2; eauto.
    + lia.
    + apply (IH i j); [lia | assumption | assumption].
Qed.

End Sorting.

(** ** Counting *)

Lemma count_contributor_inr (P : gset string) (c : json) (cc cc' : gmap string Z) :
  count_contributor P c cc = inr cc' ->
  cc' = cc \/
  exists d l n,
    c = JDict d /\ l ∈ P /\
    py_add (default 0 (cc !! l)) (default (JInt 0) (assoc_get "contributions" d)) = inr n /\
    cc' = <[l := n]> cc.
Proof.
  unfold count_contributor.
  destruct c as [| | | | |d]; simpl; try discriminate.
  destruct (truthy (default JNull (assoc_get "login" d))); simpl;
    [|intros [= <-]; now left].
  destruct (default JNull (assoc_get "login" d)) as [| | |l| |];
    try discriminate; try (intros [= <-]; now left).
  destruct (bool_decide_reflect (l ∈ P)) as [Hl|Hl]; simpl;
    [|intros [= <-]; now left].
  destruct (py_add _ _) as [x|n] eqn:Hadd; [discriminate|].
  intros [= <-]. right. now exists d, l, n.
Qed.

Lemma count_contributor_dom (P : gset string) (c : json) (cc cc' : gmap string Z) :
  count_contributor P c cc = inr cc' -> dom cc ⊆ P -> dom cc' ⊆ P.
Proof.
  intros H Hdom. apply count_contributor_inr in H as [->|(d & l & n & _ & Hl & _ & ->)].
  - exact Hdom.
  - rewrite dom_insert_L. apply union_subseteq. split; [|exact Hdom].
    now apply singleton_subseteq_l.
Qed.

Lemma count_contributors_dom (P : gset string) (contribs : list json)
    (cc cc' : gmap string Z) :
  count_contributors P contribs cc = inr cc' -> dom cc ⊆ P -> dom cc' ⊆ P.
Proof.
  revert cc. induction contribs as [|c contribs IH]; simpl; intros cc H Hdom.
  - now injection H as <-.
  - destruct (count_contributor P c cc) as [x|cc1] eqn:Hc; [discriminate|].
    eapply IH; [exact H|]. eapply count_contributor_dom; eauto.
Qed.

Lemma py_add_nonneg (n : Z) (v : json) (m : Z) :
  0 <= n -> match v with JInt k => 0 <= k | _ => True end ->
  py_add n v = inr m -> 0 <= m.
Proof.
  intros Hn Hv. destruct v as [|b|k| | |]; simpl; try discriminate.
  - intros [= <-]. destruct b; lia.
  - intros [= <-]. lia.
Qed.

Lemma count_of_nonneg (counts : gmap string Z) (login : string) :
  nonneg_counts counts -> 0 <= count_of counts login.
Proof.
  intros H. unfold count_of. destruct (counts !! login) as [n|] eqn:E; simpl.
  - eapply H; eauto.
  - lia.
Qed.

Lemma nonneg_counts_insert (counts : gmap string Z) (login : string) (n : Z) :
  nonneg_counts counts -> 0 <= n -> nonneg_counts (<[login := n]> counts).
Proof.
  intros H Hn l m. rewrite lookup_insert. case_decide.
  - now intros [= <-].
  - apply H.
Qed.

Lemma count_contributor_nonneg (P : gset string) (c : json) (cc cc' : gmap string Z) :
  nonneg_contribution c -> nonneg_counts cc ->
  count_contributor P c cc = inr cc' -> nonneg_counts cc'.
Proof.
  intros Hc Hcc H.
  apply count_contributor_inr in H as [->|(d & l & n & -> & _ & Hadd & ->)]; [exact Hcc|].
  apply nonneg_counts_insert; [exact Hcc|].
  eapply py_add_nonneg; [apply (count_of_nonneg cc l Hcc)| |exact Hadd].
  simpl in Hc. destruct (assoc_get "contributions" d) as [[| |k| | |]|]; simpl; auto; lia.
Qed.

Lemma count_contributors_nonneg (P : gset string) (contribs : list json)
    (cc cc' : gmap string Z) :
  Forall nonneg_contribution contribs -> nonneg_counts cc ->
  count_contributors P contribs cc = inr cc' -> nonneg_counts cc'.
Proof.
  intros Hall. revert cc. induction Hall as [|c contribs Hc Hall IH]; simpl; intros cc Hcc H.
  - now injection H as <-.
  - destruct (count_contributor P c cc) as [x|cc1] eqn:E; [discriminate|].
    eapply IH; [|exact H]. eapply count_contributor_nonneg; eauto.
Qed.

Lemma count_items_mono (items : list json) (i p i' p' : Z) :
  count_items items i p = inr (i', p') -> i <= i' /\ p <= p'.
Proof.
  revert i p. induction items as [|it items IH]; simpl; intros i p H.
  - injection H as <- <-. lia.
  - destruct (py_get it "pull_request" JNull) as [x|pr]; [discriminate|].
    destruct (truthy pr); apply IH in H; lia.
Qed.

Lemma nonneg_counts_empty : nonneg_counts ∅.
Proof. intros l n. now rewrite lookup_empty. Qed.

Lemma add_count_nonneg (login : string) (n : Z) (counts : gmap string Z) :
  0 <= n -> nonneg_counts counts -> nonneg_counts (add_count login n counts).
Proof.
  intros Hn H. unfold add_count. destruct (n =? 0); [exact H|].
  apply nonneg_counts_insert; [exact H|].
  pose proof (count_of_nonneg counts login H) as H0. unfold count_of in H0. lia.
Qed.

Lemma add_count_dom (P : gset string) (login : string) (n : Z) (counts : gmap string Z) :
  login ∈ P -> dom counts ⊆ P -> dom (add_count login n counts) ⊆ P.
Proof.
  intros Hl H. unfold add_count. destruct (n =? 0); [exact H|].
  rewrite dom_insert_L. apply union_subseteq. split; [|exact H].
  now apply singleton_subseteq_l.
Qed.

Section LoopInvariants.

Context {pf : Platform}.
Variable TOKEN : option string.

(** The items a contributors loop returns come from the pages it read. *)
Lemma contributors_loop_nonneg (repo : string) (script : list response) :
  forall page contributors e contributors' rest e',
    Forall nonneg_page script ->
    Forall nonneg_contribution contributors ->
    contributors_loop TOKEN repo script page contributors e = Returned contributors' rest e' ->
    Forall nonneg_contribution contributors' /\ Forall nonneg_page rest.
Proof.
  induction script as [|resp script IH]; intros page cs e cs' rest e' Hscript Hcs H.
  - discriminate H.
  - rewrite contributors_loop_turn in H. cbv zeta in H.
    apply Forall_cons in Hscript as [Hresp Hscript].
    destruct (handle_rate_limit resp _) as [[x ex]|[[|] e1]]; [discriminate| |].
    + eapply IH; eauto.
    + destruct (negb (status_code resp =? 200)).
      { injection H as <- <- <-. auto. }
      destruct (json_body resp) as [page_items|] eqn:Hbody; [|discriminate].
      destruct (negb (truthy page_items)).
      { injection H as <- <- <-. auto. }
      destruct (py_iter page_items) as [items|] eqn:Hiter; [|discriminate].
      destruct (py_len page_items) as [n|]; [|discriminate].
      assert (Hall : Forall nonneg_contribution (cs ++ items)).
      { apply Forall_app. split; [exact Hcs|]. eapply Hresp; eauto. }
      destruct (n <? PER_PAGE).
      * injection H as <- <- <-. auto.
      * eapply IH; eauto.
Qed.

(** The counts of an issues loop only grow. *)
Lemma issues_loop_mono (repo author : string) (script : list response) :
  forall page i p e i' p' rest e',
    issues_loop TOKEN repo author script page i p e = Returned (i', p') rest e' ->
    i <= i' /\ p <= p'.
Proof.
  induction script as [|resp script IH]; intros page i p e i' p' rest e' H.
  - discriminate H.
  - rewrite issues_loop_turn in H. cbv zeta in H.
    destruct (handle_rate_limit resp _) as [[x ex]|[[|] e1]]; [discriminate| |].
    + eapply IH; eauto.
    + destruct (negb (status_code resp =? 200)).
      { injection H as <- <- <- <-. lia. }
      destruct (json_body resp) as [items|]; [|discriminate].
      destruct (negb (truthy items)).
      { injection H as <- <- <- <-. lia. }
      destruct (py_iter items) as [its|]; [|discriminate].
      destruct (py_len items) as [n|]; [|discriminate].
      destruct (count_items its i p) as [x|[i1 p1]] eqn:Hc; [discriminate|].
      apply count_items_mono in Hc.
      destruct (n <? PER_PAGE).
      * injection H as <- <- <- <-. lia.
      * apply IH in H. lia.
Qed.

Lemma fetch_issues_nonneg (repo author : string) script e i p rest e' :
  fetch_issues_and_prs_for_author TOKEN repo author script e = Returned (i, p) rest e' ->
  0 <= i /\ 0 <= p.
Proof. unfold fetch_issues_and_prs_for_author. intros H. now apply issues_loop_mono in H. Qed.

(** *** The three counters *)

Lemma count_commits_dom (P : gset string) (repos : list string) script e cc rest e' :
  count_commits TOKEN P repos script e = Returned cc rest e' -> dom cc ⊆ P.
Proof.
  unfold count_commits.
  apply (for_each_inv (fun (cc : gmap string Z) (_ : list response) => dom cc ⊆ P)).
  - intros repo s sc e0 s' r e1 Hs H.
    bind_inv H. bind_inv H. apply lift_returned in H as (H & _ & _).
    eapply count_contributors_dom; eauto.
  - rewrite dom_empty_L. set_solver.
Qed.

Lemma count_commits_nonneg (P : gset string) (repos : list string) script e cc rest e' :
  Forall nonneg_page script ->
  count_commits TOKEN P repos script e = Returned cc rest e' ->
  nonneg_counts cc /\ Forall nonneg_page rest.
Proof.
  intros Hscript. unfold count_commits.
  apply (for_each_inv (fun (cc : gmap string Z) (sc : list response) =>
                         nonneg_counts cc /\ Forall nonneg_page sc)).
  - intros repo s sc e0 s' r e1 [Hs Hsc] H.
    bind_inv H. apply emit_returned in H_m as [-> ->].
    bind_inv H. apply lift_returned in H as (H & -> & _).
    unfold fetch_contributors_for_repo in H_m.
    apply contributors_loop_nonneg in H_m as [Hitems Hrest]; [|exact Hsc|constructor].
    split; [|exact Hrest]. eapply count_contributors_nonneg; eauto.
  - split; [apply nonneg_counts_empty | exact Hscript].
Qed.

Section WithSetOrder.

Variable set_iter : gset string -> list string.

Lemma count_prs_issues_nonneg (P : gset string) (repos : list string)
    script e pc ic rest e' :
  count_prs_issues TOKEN set_iter P repos script e = Returned (pc, ic) rest e' ->
  nonneg_counts pc /\ nonneg_counts ic.
Proof.
  unfold count_prs_issues. intros H.
  eapply (for_each_inv (fun (st : gmap string Z * gmap string Z) (_ : list response) =>
                          nonneg_counts (fst st) /\ nonneg_counts (snd st))) in H;
    [exact H| |].
  - clear. intros repo s sc e0 s' r e1 Hs H. bind_inv H.
    revert H.
    apply (for_each_inv (fun (st : gmap string Z * gmap string Z) (_ : list response) =>
                           nonneg_counts (fst st) /\ nonneg_counts (snd st)));
      [|exact Hs].
    clear. intros login [pc ic] sc e0 [pc' ic'] r e1 [Hp Hi] H. simpl in *.
    bind_inv H. destruct a as [i_count p_count].
    apply fetch_issues_nonneg in H_m as [Hic Hpc].
    apply ret_returned in H as (H & _ & _). injection H as -> ->.
    split; apply add_count_nonneg; auto.
  - split; apply nonneg_counts_empty.
Qed.

Hypothesis set_iter_sound : forall (s : gset string) (x : string), In x (set_iter s) -> x ∈ s.

Lemma count_prs_issues_dom (P : gset string) (repos : list string)
    script e pc ic rest e' :
  count_prs_issues TOKEN set_iter P repos script e = Returned (pc, ic) rest e' ->
  dom pc ⊆ P /\ dom ic ⊆ P.
Proof.
  unfold count_prs_issues. intros H.
  eapply (for_each_inv (fun (st : gmap string Z * gmap string Z) (_ : list response) =>
                          dom (fst st) ⊆ P /\ dom (snd st) ⊆ P)) in H;
    [exact H| |].
  - clear - set_iter_sound. intros repo s sc e0 s' r e1 Hs H. bind_inv H.
    revert H.
    apply (for_each_inv_in (fun (st : gmap string Z * gmap string Z) (_ : list response) =>
                              dom (fst st) ⊆ P /\ dom (snd st) ⊆ P));
      [|exact Hs].
    clear - set_iter_sound.
    intros login [pc ic] sc e0 [pc' ic'] r e1 Hin [Hp Hi] H. simpl in *.
    bind_inv H. destruct a as [i_count p_count].
    apply ret_returned in H as (H & _ & _). injection H as -> ->.
    apply set_iter_sound in Hin.
    split; apply add_count_dom; auto.
  - simpl. rewrite dom_empty_L. set_solver.
Qed.

End WithSetOrder.

End LoopInvariants.

(** ** Building the table *)

Lemma keys_dict_set {A} (k : string) (v : A) (d : list (string * A)) (x : string) :
  In x (keys (dict_set k v d)) <-> x = k \/ In x (keys d).
Proof.
  induction d as [|[k' v'] d IH]; simpl.
  - intuition.
  - destruct (String.eqb_spec k k') as [->|Hne]; simpl.
    + intuition.
    + rewrite IH. intuition.
Qed.

Lemma in_dict_set {A} (k : string) (v : A) (d : list (string * A)) (x : string) (w : A) :
  In (x, w) (dict_set k v d) -> (x = k /\ w = v) \/ In (x, w) d.
Proof.
  induction d as [|[k' v'] d IH]; simpl.
  - intros [[= <- <-]|[]]. now left.
  - destruct (String.eqb_spec k k') as [->|Hne]; simpl.
    + intros [[= <- <-]|H]; auto.
    + intros [H|H]; auto. apply IH in H. intuition.
Qed.

Section Collect.

Context {pf : Platform}.
Variables (TOKEN : option string) (include_zero : bool) (cc pc ic : gmap string Z).

Lemma collect_user_returned (login : string) (users users' : list (string * user_data))
    script e rest e' :
  collect_user TOKEN include_zero cc pc ic login users script e = Returned users' rest e' ->
  (include_zero = false /\ total_of cc pc ic login = 0 /\ users' = users) \/
  ((include_zero = true \/ total_of cc pc ic login <> 0) /\
   exists m, users' = dict_set login
     {| avatar := meta_avatar m; url := meta_url m;
        commits := count_of cc login; prs := count_of pc login;
        issues := count_of ic login |} users).
Proof.
  unfold collect_user, total_of, count_of.
  destruct include_zero; simpl.
  - intros H. bind_inv H. apply ret_returned in H as (-> & _ & _).
    right. split; [now left|]. now exists a.
  - destruct (Z.eqb_spec (default 0 (cc !! login) + default 0 (pc !! login)
                          + default 0 (ic !! login)) 0) as [Hz|Hnz].
    + intros H. apply ret_returned in H as (-> & _ & _). now left.
    + intros H. bind_inv H. apply ret_returned in H as (-> & _ & _).
      right. split; [now right|]. now exists a.
Qed.

Lemma collect_spec (l : list string) :
  forall users script e users' rest e',
    for_each l (collect_user TOKEN include_zero cc pc ic) users script e
      = Returned users' rest e' ->
    (forall login, In login (keys users') <->
       In login (keys users) \/
       (In login l /\ (include_zero = true \/ total_of cc pc ic login <> 0)))
    /\
    (forall login data, In (login, data) users' ->
       In (login, data) users \/
       (In login l /\ commits data = count_of cc login /\
        prs data = count_of pc login /\ issues data = count_of ic login)).
Proof.
  induction l as [|x l IH]; simpl; intros users script e users' rest e' H.
  - apply ret_returned in H as (-> & _ & _). split.
    + intros login. intuition.
    + intros login data Hin. now left.
  - bind_inv H. apply IH in H as [Hkeys Hdata].
    apply collect_user_returned in H_m
      as [(Hz & Htot & ->)|(Hkeep & m & ->)].
    + split.
      * intros login. rewrite Hkeys. split.
        -- intros [Hin|[Hin Hk]]; auto.
        -- intros [Hin|[[<-|Hin] Hk]]; auto.
           destruct Hk as [Hk|Hk]; congruence.
      * intros login data Hin. apply Hdata in Hin as [Hin|(Hin & Hrest)]; auto.
    + split.
      * intros login. rewrite Hkeys, keys_dict_set. split.
        -- intros [[->|Hin]|[Hin Hk]]; auto.
        -- intros [Hin|[[<-|Hin] Hk]]; auto.
      * intros login data Hin. apply Hdata in Hin as [Hin|(Hin & Hrest)]; auto.
        apply in_dict_set in Hin as [[-> ->]|Hin]; auto.
Qed.

End Collect.

Lemma rows_lookup (row : Z -> string -> user_data -> string)
    (sorted_users : list (string * user_data)) :
  forall (i : Z) (k : nat),
    rows row i sorted_users !! k =
      (fun x => row (i + Z.of_nat k) (fst x) (snd x)) <$> sorted_users !! k.
Proof.
  induction sorted_users as [|[login data] l IH]; intros i k.
  - reflexivity.
  - destruct k as [|k]; simpl.
    + now rewrite Z.add_0_r.
    + rewrite IH.
      replace (i + Z.of_nat (S k)) with (i + 1 + Z.of_nat k) by lia. reflexivity.
Qed.

Lemma table_lines_lookup (repr : json -> string)
    (sorted_users : list (string * user_data)) (include_prs_issues : bool) (k : nat) :
  table_lines repr sorted_users include_prs_issues !! (3 + k)%nat =
    (fun x => (if include_prs_issues then row_prs_issues repr else row_commits repr)
                (1 + Z.of_nat k) (fst x) (snd x)) <$> sorted_users !! k.
Proof.
  unfold table_lines. destruct include_prs_issues; simpl; apply rows_lookup.
Qed.

(** ** The run *)

Section Run.

Context {pf : Platform}.
Variables (TOKEN : option string) (set_iter : gset string -> list string)
  (repr_container : json -> string).

Lemma tally_returned (a : args) (file : participants_file) script e P cc pc ic rest e' :
  tally TOKEN set_iter a file script e = Returned (P, cc, pc, ic) rest e' ->
  exists items repos e1 rest1 e2,
    file = Items items /\ P = list_to_set items /\
    count_commits TOKEN P repos script e1 = Returned cc rest1 e2 /\
    ((include_prs_issues a = true /\
      count_prs_issues TOKEN set_iter P repos rest1 (log (Stdout CountingPRsIssues) e2)
        = Returned (pc, ic) rest e')
     \/
     (include_prs_issues a = false /\ pc = ∅ /\ ic = ∅ /\ rest = rest1 /\ e' = e2)).
Proof.
  unfold tally. intros H. bind_inv H.
  destruct file as [| |items]; try (cbv [load_participants bind emit raise] in H_m; discriminate).
  apply ret_returned in H_m as (-> & -> & ->).
  destruct (bool_decide (list_to_set items = ∅));
    [cbv [bind emit raise] in H; discriminate|].
  bind_inv H.
  assert (rest0 = script) as ->.
  { destruct TOKEN as [[|c t]|].
    - now apply emit_returned in H_m as [-> _].
    - now apply ret_returned in H_m as (_ & -> & _).
    - now apply emit_returned in H_m as [-> _]. }
  clear H_m. bind_split H as u1 r1 x1 H1. apply emit_returned in H1 as [-> ->].
  bind_split H as u2 r2 x2 H2. apply emit_returned in H2 as [-> ->].
  bind_split H as cc0 r3 x3 Hc. bind_split H as pi r4 x4 Hpi. destruct pi as [pc0 ic0].
  apply ret_returned in H as (H & -> & ->).
  injection H as HP Hcc Hpc Hic. subst P cc pc ic.
  eexists items, _, _, _, _. split; [reflexivity|]. split; [reflexivity|].
  split; [exact Hc|].
  destruct (include_prs_issues a).
  - left. split; [reflexivity|]. bind_split Hpi as u5 r5 x5 H5.
    apply emit_returned in H5 as [-> ->]. exact Hpi.
  - right. apply ret_returned in Hpi as (H & -> & ->). now injection H as <- <-.
Qed.

Lemma rank_users_returned (a : args) (file : participants_file) script e su rest e' :
  rank_users TOKEN set_iter a file script e = Returned su rest e' ->
  exists P cc pc ic rest1 e1 users,
    tally TOKEN set_iter a file script e = Returned (P, cc, pc, ic) rest1 e1 /\
    collect_users TOKEN set_iter (include_zero a) P cc pc ic rest1 e1
      = Returned users rest e' /\
    su = py_sorted_reverse (sort_key (include_prs_issues a)) users.
Proof.
  unfold rank_users. intros H. bind_split H as t r1 x1 Ht. destruct t as [[[P cc] pc] ic].
  bind_split H as users r2 x2 Hu. apply ret_returned in H as (-> & -> & ->).
  now exists P, cc, pc, ic, r1, x1, users.
Qed.

Lemma main_returned (a : args) (file : participants_file) script e u rest e' :
  main TOKEN set_iter repr_container a file script e = Returned u rest e' ->
  exists sorted_users e1,
    rank_users TOKEN set_iter a file script e = Returned sorted_users rest e1 /\
    e' = log (Stdout (Wrote "README.md"))
           (log (WriteFile "README.md"
                   (String.concat newline
                      (table_lines repr_container sorted_users (include_prs_issues a)))) e1).
Proof.
  unfold main. intros H. bind_split H as su r1 x1 Hr. bind_split H as u2 r2 x2 Hw.
  apply write_text_returned in Hw as (_ & -> & ->). apply emit_returned in H as [-> ->].
  now exists su, x1.
Qed.

Lemma tally_dom (a : args) (file : participants_file) script e P cc pc ic rest e' :
  (forall (s : gset string) (x : string), In x (set_iter s) -> x ∈ s) ->
  tally TOKEN set_iter a file script e = Returned (P, cc, pc, ic) rest e' ->
  dom cc ⊆ P /\ dom pc ⊆ P /\ dom ic ⊆ P.
Proof.
  intros Hsound H.
  apply tally_returned in H as (items & repos & e1 & rest1 & e2 & _ & _ & Hc & Hpi).
  split; [eapply count_commits_dom; eauto|].
  destruct Hpi as [[_ Hpi]|(_ & -> & -> & _)].
  - eapply count_prs_issues_dom; eauto.
  - rewrite dom_empty_L. set_solver.
Qed.

Lemma tally_nonneg (a : args) (file : participants_file) script e P cc pc ic rest e' :
  tally TOKEN set_iter a file script e = Returned (P, cc, pc, ic) rest e' ->
  nonneg_counts pc /\ nonneg_counts ic /\ (Forall nonneg_page script -> nonneg_counts cc).
Proof.
  intros H.
  apply tally_returned in H as (items & repos & e1 & rest1 & e2 & _ & _ & Hc & Hpi).
  assert (Hcc : Forall nonneg_page script -> nonneg_counts cc).
  { intros Hs. eapply count_commits_nonneg in Hc as [Hc _]; eauto. }
  destruct Hpi as [[_ Hpi]|(_ & -> & -> & _)].
  - apply count_prs_issues_nonneg in Hpi as [Hp Hi]. auto.
  - auto using nonneg_counts_empty.
Qed.

End Run.

(** ** The leaderboard *)



Section Leaderboard.

Context {pf : Platform}.
Variables (TOKEN : option string) (set_iter : gset string -> list string)
  (repr_container : json -> string).


(** C1.  When the run returns, the file written is the table of a list
    of users; every row of the table is the row of a login that is a
    member of the participant set loaded from the file, and the three
    counters hold counts for members of that set only.  One step of the
    commit counting never adds a key outside the set. *)
Theorem leaderboard_rows_are_participants (a : args) (file : participants_file)
    script e rest e' :
  (forall (s : gset string) (x : string), In x (set_iter s) -> x ∈ s) ->
  main TOKEN set_iter repr_container a file script e = Returned tt rest e' ->
  exists items sorted_users cc pc ic rest1 e1 e2,
    let P : gset string := list_to_set items in
    file = Items items /\
    tally TOKEN set_iter a file script e = Returned (P, cc, pc, ic) rest1 e1 /\
    dom cc ⊆ P /\ dom pc ⊆ P /\ dom ic ⊆ P /\
    (forall c cc0 cc1,
       dom cc0 ⊆ P -> count_contributor P c cc0 = inr cc1 -> dom cc1 ⊆ P) /\
    wrote_table repr_container a sorted_users e2 e' /\
    (forall (k : nat) (line : string),
       table_lines repr_container sorted_users (include_prs_issues a) !! (3 + k)%nat
         = Some line ->
       exists login data,
         sorted_users !! k = Some (login, data) /\
         line = row_of repr_container a (1 + Z.of_nat k) login data /\
         login ∈ P).
Proof.
  intros Hsound H.
  apply main_returned in H as (su & e2 & Hr & He').
  apply rank_users_returned in Hr as (P & cc & pc & ic & rest1 & e1 & users & Ht & Hu & ->).
  pose proof Ht as Hinv.
  apply tally_returned in Hinv as (items & _ & _ & _ & _ & -> & -> & _).
  destruct (tally_dom _ _ _ _ _ _ _ _ _ _ _ _ Hsound Ht) as (Hcc & Hpc & Hic).
  exists items, (py_sorted_reverse (sort_key (include_prs_issues a)) users),
    cc, pc, ic, rest1, e1, e2.
  cbv zeta. repeat (split; [try reflexivity; try assumption|]).
  - intros c cc0 cc1 H0 H1. eapply count_contributor_dom; eauto.
  - intros k line Hline. rewrite table_lines_lookup in Hline.
    destruct (_ !! k) as [[login data]|] eqn:Hk; [|discriminate].
    injection Hline as <-. exists login, data.
    split; [reflexivity|]. split; [reflexivity|].
    apply list_elem_of_lookup_2, list_elem_of_In in Hk.
    apply (Permutation_in _ (Permutation_sym (py_sorted_reverse_perm _ users))) in Hk.
    unfold collect_users in Hu. apply collect_spec in Hu as [Hkeys _].
    assert (Hin : In login (keys users)) by (apply (in_map fst) in Hk; exact Hk).
    apply Hkeys in Hin as [[]|[Hin _]]. now apply Hsound.
Qed.

(** C3.  When the run returns, the users of the table written are in
    non-increasing order of the sort key, and the rows follow that order:
    of two rows the upper one has the larger or equal key, which is
    commits + prs + issues when PR/issue counting is enabled and the
    commit count otherwise. *)
Theorem leaderboard_rows_are_sorted (a : args) (file : participants_file)
    script e rest e' :
  main TOKEN set_iter repr_container a file script e = Returned tt rest e' ->
  exists sorted_users e2,
    wrote_table repr_container a sorted_users e2 e' /\
    StronglySorted (key_ge (sort_key (include_prs_issues a))) sorted_users /\
    (forall (i j : nat) x y,
       (i <= j)%nat ->
       sorted_users !! i = Some x -> sorted_users !! j = Some y ->
       table_lines repr_container sorted_users (include_prs_issues a) !! (3 + i)%nat
         = Some (row_of repr_container a (1 + Z.of_nat i) (fst x) (snd x)) /\
       table_lines repr_container sorted_users (include_prs_issues a) !! (3 + j)%nat
         = Some (row_of repr_container a (1 + Z.of_nat j) (fst y) (snd y)) /\
       if include_prs_issues a
       then commits (snd y) + prs (snd y) + issues (snd y)
            <= commits (snd x) + prs (snd x) + issues (snd x)
       else commits (snd y) <= commits (snd x)).
Proof.
  intros H.
  apply main_returned in H as (su & e2 & Hr & He').
  apply rank_users_returned in Hr as (P & cc & pc & ic & rest1 & e1 & users & _ & _ & ->).
  eexists _, e2. split; [exact He'|].
  split; [apply py_sorted_reverse_sorted|].
  intros i j x y Hij Hi Hj.
  rewrite !table_lines_lookup, Hi, Hj.
  split; [reflexivity|]. split; [reflexivity|].
  pose proof (sorted_lookup_ge _ _ i j x y (py_sorted_reverse_sorted _ users) Hij Hi Hj) as Hle.
  unfold sort_key in Hle. destruct (include_prs_issues a); exact Hle.
Qed.

(** C4.  When the run returns, a participant whose accumulated total
    (commits + prs + issues) is zero is in the table exactly when
    zero-inclusion was requested, and a participant whose total is not
    zero is in the table; the row of a listed participant shows the
    accumulated counts. *)
Theorem zero_totals_listed_on_request (a : args) (file : participants_file)
    script e rest e' :
  (forall (s : gset string) (x : string), In x (set_iter s) <-> x ∈ s) ->
  main TOKEN set_iter repr_container a file script e = Returned tt rest e' ->
  exists items sorted_users P cc pc ic rest1 e1 e2,
    file = Items items /\ P = list_to_set items /\
    tally TOKEN set_iter a file script e = Returned (P, cc, pc, ic) rest1 e1 /\
    wrote_table repr_container a sorted_users e2 e' /\
    (forall login, login ∈ P ->
       (total_of cc pc ic login = 0 ->
        (In login (keys sorted_users) <-> include_zero a = true)) /\
       (total_of cc pc ic login <> 0 -> In login (keys sorted_users))) /\
    (forall login data, In (login, data) sorted_users ->
       commits data = count_of cc login /\ prs data = count_of pc login /\
       issues data = count_of ic login).
Proof.
  intros Hiter H.
  apply main_returned in H as (su & e2 & Hr & He').
  apply rank_users_returned in Hr as (P & cc & pc & ic & rest1 & e1 & users & Ht & Hu & ->).
  pose proof Ht as Hinv.
  apply tally_returned in Hinv as (items & _ & _ & _ & _ & Hfile & Hset & _).
  exists items, (py_sorted_reverse (sort_key (include_prs_issues a)) users),
    P, cc, pc, ic, rest1, e1, e2.
  split; [exact Hfile|]. split; [exact Hset|].
  split; [exact Ht|]. split; [exact He'|].
  unfold collect_users in Hu. apply collect_spec in Hu as [Hkeys Hdata].
  assert (Hperm : forall login,
            In login (keys (py_sorted_reverse (sort_key (include_prs_issues a)) users))
            <-> In login (keys users)).
  { intros login. unfold keys. split; apply Permutation_in, Permutation_map.
    - symmetry. apply py_sorted_reverse_perm.
    - apply py_sorted_reverse_perm. }
  split.
  - intros login Hmem. apply Hiter in Hmem. split.
    + intros Hz. rewrite Hperm, Hkeys. split.
      * intros [[]|[_ [Hk|Hk]]]; [exact Hk | contradiction].
      * intros Hk. right. auto.
    + intros Hnz. rewrite Hperm, Hkeys. right. auto.
  - intros login data Hin.
    apply (Permutation_in _ (Permutation_sym (py_sorted_reverse_perm _ users))) in Hin.
    apply Hdata in Hin as [[]|(_ & Hc & Hp & Hi)]. auto.
Qed.

(** C10, as the code has it.  When the counting returns, the PR counts
    and the issue counts are not negative, and the commit counts are not
    negative when no page of the script carries a negative
    [contributions] value.  This holds along the way: one step of the
    commit counting keeps the counts non-negative on an item whose
    [contributions] is not negative, and the two counts of an issues
    loop never decrease. *)
Theorem counts_not_negative (a : args) (file : participants_file)
    script e P cc pc ic rest e' :
  tally TOKEN set_iter a file script e = Returned (P, cc, pc, ic) rest e' ->
  nonneg_counts pc /\ nonneg_counts ic /\
  (Forall nonneg_page script -> nonneg_counts cc) /\
  (forall c cc0 cc1,
     nonneg_contribution c -> nonneg_counts cc0 ->
     count_contributor P c cc0 = inr cc1 -> nonneg_counts cc1) /\
  (forall repo author sc page i p e0 i' p' r e1,
     issues_loop TOKEN repo author sc page i p e0 = Returned (i', p') r e1 ->
     i <= i' /\ p <= p').
Proof.
  intros H. apply tally_nonneg in H as (Hp & Hi & Hc).
  repeat (split; [assumption|]). split.
  - intros c cc0 cc1. apply count_contributor_nonneg.
  - intros repo author sc page i p e0 i' p' r e1. apply issues_loop_mono.
Qed.

End Leaderboard.

(** ** Concrete runs *)

Lemma elements_sound (s : gset string) (x : string) : In x (elements s) -> x ∈ s.
Proof. intros H. apply elem_of_elements. now apply list_elem_of_In. Defined.

Lemma elements_complete (s : gset string) (x : string) : In x (elements s) <-> x ∈ s.
Proof. rewrite <- elem_of_elements. symmetry. apply list_elem_of_In. Defined.

(** Two full pages of a hundred items and an empty page. *)
Lemma fetch_contributors_two_full_pages_run :
  fetch_contributors_for_repo None "o/r"
    [ok_page (full_page "alice"); ok_page (full_page "bob"); ok_page []; not_found] noon
  = Returned (full_page "alice" ++ full_page "bob") [not_found]
      {| clock := 200;
         trace := [Get (contributors_url "o/r") (HEADERS None) (page_params 3);
                   Get (contributors_url "o/r") (HEADERS None) (page_params 2);
                   Get (contributors_url "o/r") (HEADERS None) (page_params 1)] |}.
Proof.
  apply (fetch_contributors_two_full_pages None "o/r"
           (ok_page (full_page "alice")) (ok_page (full_page "bob")) (ok_page [])
           (full_page "alice") (full_page "bob") [not_found] noon);
    reflexivity.
Defined.

(** Page 4 is answered by a rate limit, then by a short page. *)
Lemma rate_limit_retries_same_page_run :
  contributors_loop None "o/r" [limited "300"; ok_page [contributor "alice" 3]] 4 [] noon
  = Returned [contributor "alice" 3] []
      {| clock := 302;
         trace := [Get (contributors_url "o/r") (HEADERS None) (page_params 4);
                   Sleep 102; Stdout (RateLimitReached 102);
                   Get (contributors_url "o/r") (HEADERS None) (page_params 4)] |}.
Proof.
  refine (proj1 (proj2 (rate_limit_retries_same_page None "o/r" "alice" (limited "300") 4 noon
                          "300" 300 eq_refl eq_refl eq_refl eq_refl _ eq_refl))
            (ok_page [contributor "alice" 3]) [] [] [contributor "alice" 3]
            eq_refl eq_refl _).
  - vm_compute. discriminate.
  - discriminate.
Defined.

(** C6 as stated fails: page 4 is answered by a rate limit whose reset
    time is given in milliseconds, then by a successful page.  The wait
    is more than [time.sleep] takes: the loop prints its message, the
    sleep raises [OverflowError], and page 4 is not asked for again. *)
Lemma rate_limit_far_reset_is_fatal :
  contributors_loop None "o/r"
    [limited "1700000000000"; ok_page [contributor "alice" 3]] 4 [] noon
  = Raised OverflowError
      {| clock := 200;
         trace := [Stdout (RateLimitReached 1699999999802);
                   Get (contributors_url "o/r") (HEADERS None) (page_params 4)] |}
  /\ issues_loop None "o/r" "alice"
       [limited "1700000000000"; ok_page [JDict [("title", JStr "t")]]] 4 0 0 noon
  = Raised OverflowError
      {| clock := 200;
         trace := [Stdout (RateLimitReached 1699999999802);
                   Get (issues_url "o/r") (HEADERS None) (issues_params "alice" 4)] |}.
Proof. split; vm_compute; reflexivity. Qed.

(** A 404 after one page has been accumulated. *)
Lemma failed_page_keeps_partial_results_run :
  contributors_loop None "o/r" [not_found; ok_page []] 2 (full_page "alice") noon
    = Returned (full_page "alice") [ok_page []]
        (log (Stderr (ContributorsFailed "o/r" 2 404 "Not Found"))
           (log (Get (contributors_url "o/r") (HEADERS None) (page_params 2)) noon))
  /\
  issues_loop None "o/r" "alice" [not_found; ok_page []] 2 7 5 noon
    = Returned (7, 5) [ok_page []]
        (log (Stderr (IssuesFailed "alice" "o/r" 2 404 "Not Found"))
           (log (Get (issues_url "o/r") (HEADERS None) (issues_params "alice" 2)) noon)).
Proof.
  apply (failed_page_keeps_partial_results None "o/r" "alice" not_found [ok_page []] 2
           (full_page "alice") 7 5 noon).
  - discriminate.
  - reflexivity.
Defined.

(** A profile lookup answered by a rate limit, then by a 404. *)
Lemma get_user_meta_falls_back_run :
  get_user_meta None "alice" [limited "300"; not_found] noon
  = Returned {| meta_avatar := JStr EmptyString; meta_url := JStr "https://github.com/alice" |}
      []
      {| clock := 302;
         trace := [Get (user_url "alice") (HEADERS None) [];
                   Sleep 102; Stdout (RateLimitReached 102);
                   Get (user_url "alice") (HEADERS None) []] |}.
Proof.
  refine (proj2 (proj2 (proj2 (get_user_meta_falls_back None "alice")))
            (limited "300") not_found [] noon "300" 300
            eq_refl eq_refl eq_refl eq_refl _ eq_refl _).
  - vm_compute. discriminate.
  - discriminate.
Defined.

(** C9 as stated fails: the profile lookup is answered by a response
    that is no success, status 403 with remaining quota ["0"] and a reset
    header that is no integer.  [get_user_meta] raises [ValueError]
    instead of returning the fallback record, and the run that asked for
    the profile ends with that exception. *)
Lemma unreadable_reset_is_fatal :
  status_code (limited "soon") <> 200
  /\ get_user_meta None "alice" [limited "soon"] noon
     = Raised ValueError (log (Get (user_url "alice") (HEADERS None) []) noon)
  /\ exists e,
       main None elements question_mark (one_repo false false) three_participants
         [ok_page [contributor "alice" 3]; limited "soon"] noon
       = Raised ValueError e.
Proof.
  split; [discriminate|]. split; [vm_compute; reflexivity|].
  eexists. vm_compute. reflexivity.
Qed.


Lemma short_run_returns :
  main None elements question_mark (one_repo false false) three_participants short_run noon
  = Returned tt [] short_run_end.
Proof. vm_compute. reflexivity. Defined.

(** Three participants, of whom "carol" has no contribution, and a
    contributor "eve" who is no participant. *)
Lemma leaderboard_rows_are_participants_run :
  exists items sorted_users cc pc ic rest1 e1 e2,
    let P : gset string := list_to_set items in
    three_participants = Items items /\
    tally None elements (one_repo false false) three_participants short_run noon
      = Returned (P, cc, pc, ic) rest1 e1 /\
    dom cc ⊆ P /\ dom pc ⊆ P /\ dom ic ⊆ P /\
    (forall c cc0 cc1,
       dom cc0 ⊆ P -> count_contributor P c cc0 = inr cc1 -> dom cc1 ⊆ P) /\
    wrote_table question_mark (one_repo false false) sorted_users e2 short_run_end /\
    (forall (k : nat) (line : string),
       table_lines question_mark sorted_users false !! (3 + k)%nat = Some line ->
       exists login data,
         sorted_users !! k = Some (login, data) /\
         line = row_of question_mark (one_repo false false) (1 + Z.of_nat k) login data /\
         login ∈ P).
Proof.
  apply (leaderboard_rows_are_participants None elements question_mark
           (one_repo false false) three_participants short_run noon [] short_run_end).
  - exact elements_sound.
  - exact short_run_returns.
Defined.

Lemma leaderboard_rows_are_sorted_run :
  exists sorted_users e2,
    wrote_table question_mark (one_repo false false) sorted_users e2 short_run_end /\
    StronglySorted (key_ge (sort_key false)) sorted_users /\
    (forall (i j : nat) x y,
       (i <= j)%nat ->
       sorted_users !! i = Some x -> sorted_users !! j = Some y ->
       table_lines question_mark sorted_users false !! (3 + i)%nat
         = Some (row_of question_mark (one_repo false false) (1 + Z.of_nat i) (fst x) (snd x)) /\
       table_lines question_mark sorted_users false !! (3 + j)%nat
         = Some (row_of question_mark (one_repo false false) (1 + Z.of_nat j) (fst y) (snd y)) /\
       commits (snd y) <= commits (snd x)).
Proof.
  apply (leaderboard_rows_are_sorted None elements question_mark
           (one_repo false false) three_participants short_run noon [] short_run_end).
  exact short_run_returns.
Defined.

Lemma zero_totals_listed_on_request_run :
  exists items sorted_users P cc pc ic rest1 e1 e2,
    three_participants = Items items /\ P = list_to_set items /\
    tally None elements (one_repo false false) three_participants short_run noon
      = Returned (P, cc, pc, ic) rest1 e1 /\
    wrote_table question_mark (one_repo false false) sorted_users e2 short_run_end /\
    (forall login, login ∈ P ->
       (total_of cc pc ic login = 0 -> (In login (keys sorted_users) <-> false = true)) /\
       (total_of cc pc ic login <> 0 -> In login (keys sorted_users))) /\
    (forall login data, In (login, data) sorted_users ->
       commits data = count_of cc login /\ prs data = count_of pc login /\
       issues data = count_of ic login).
Proof.
  apply (zero_totals_listed_on_request None elements question_mark
           (one_repo false false) three_participants short_run noon [] short_run_end).
  - exact elements_complete.
  - exact short_run_returns.
Defined.

Lemma short_run_pages_nonneg : Forall nonneg_page short_run.
Proof.
  repeat constructor; intros v items Hv Hitems; simpl in Hv; try discriminate.
  injection Hv as <-. injection Hitems as <-.
  repeat constructor; simpl; lia.
Defined.

Lemma counts_not_negative_run :
  nonneg_counts (<["bob" := 5]> (<["alice" := 3]> ∅)).
Proof.
  refine (proj1 (proj2 (proj2
    (counts_not_negative None elements (one_repo false false) three_participants
       short_run noon (list_to_set ["alice"; "bob"; "carol"])
       (<["bob" := 5]> (<["alice" := 3]> ∅)) ∅ ∅ [not_found; not_found]
       short_tally_end _))) short_run_pages_nonneg).
  vm_compute. reflexivity.
Defined.

(** C10 as stated fails: the contributors endpoint reports -3
    contributions for the participant "alice", and the commit count
    accumulated for "alice" is -3. *)
Lemma negative_contributions_are_counted :
  commits_after
    (tally None elements (one_repo false false) (Items ["alice"]) negative_run noon)
    "alice" = Some (-3)
  /\ ~ nonneg_counts (<["alice" := -3]> ∅).
Proof.
  split; [vm_compute; reflexivity|].
  intros H. specialize (H "alice" (-3) (lookup_insert_eq _ _ _)). lia.
Qed.

(** A rate limit whose header names are in lower case, with the reset
    time 100 seconds ahead: the handler answers [True] after printing and
    sleeping 102 seconds. *)
Lemma handle_rate_limit_spec_run :
  handle_rate_limit (limited_lower_case "300") noon
  = inr (true, {| clock := 302; trace := [Sleep 102; Stdout (RateLimitReached 102)] |}).
Proof.
  apply (proj2 (proj1 (handle_rate_limit_spec (limited_lower_case "300") noon) _)).
  exists "300", 300.
  split; [reflexivity|]. split; [reflexivity|]. split; [reflexivity|].
  split; [reflexivity|]. split; [vm_compute; discriminate|].
  split; reflexivity.
Defined.

(** ** Further properties of the pagination *)

Lemma requested_last (url : string) (hdrs : list (string * string))
    (params : Z -> list (string * json)) (n : nat) :
  forall (page : Z) (before : list event),
    requested url hdrs params page (S n) before
    = Get url hdrs (params (page + Z.of_nat n)) :: requested url hdrs params page n before.
Proof.
  induction n as [|n IH]; intros page before.
  - simpl. now rewrite Z.add_0_r.
  - change (requested url hdrs params page (S (S n)) before)
      with (requested url hdrs params (page + 1) (S n) (Get url hdrs (params page) :: before)).
    rewrite IH. simpl requested.
    replace (page + 1 + Z.of_nat n) with (page + Z.of_nat (S n)) by lia. reflexivity.
Qed.

Lemma repeat_app_cons {A} (a : A) (n : nat) (l : list A) :
  repeat a n ++ a :: l = repeat a (S n) ++ l.
Proof. induction n as [|n IH]; simpl; [reflexivity|]. now rewrite IH. Qed.

Section AllPages.

Context {pf : Platform}.
Variable TOKEN : option string.

Lemma contributors_loop_full_pages (repo : string) (rs : list response)
    (pages : list (list json)) :
  Forall2 full_page_response rs pages ->
  forall rest page contributors e,
    contributors_loop TOKEN repo (rs ++ rest) page contributors e =
    contributors_loop TOKEN repo rest (page + Z.of_nat (length rs))
      (contributors ++ concat pages)
      {| clock := clock e;
         trace := requested (contributors_url repo) (HEADERS TOKEN) page_params
                    page (length rs) (trace e) |}.
Proof.
  induction 1 as [|r items rs pages [[Hs Hb] Hlen] Hall IH]; intros rest page cs e.
  - simpl. rewrite Z.add_0_r, app_nil_r. now destruct e.
  - assert (Hne : items <> []) by (intros ->; discriminate Hlen).
    change ((r :: rs) ++ rest) with (r :: (rs ++ rest)).
    rewrite (contributors_loop_page TOKEN repo r _ page cs items e Hs Hb Hne).
    cbv zeta. rewrite Hlen, Z.ltb_irrefl, IH.
    simpl concat. rewrite app_assoc.
    replace (page + 1 + Z.of_nat (length rs)) with (page + Z.of_nat (length (r :: rs)))
      by (simpl length; lia).
    reflexivity.
Qed.

(** X2.  Any number of full pages followed by a page that is short or empty:
    the function returns all the items in order, after one request per
    page, for the pages 1, 2, ... in turn. *)
Theorem fetch_contributors_all_pages (repo : string) (rs : list response)
    (pages : list (list json)) (final : response) (last_items : list json)
    (rest : list response) (e : env) :
  Forall2 full_page_response rs pages ->
  page_response final last_items ->
  Z.of_nat (length last_items) < PER_PAGE ->
  fetch_contributors_for_repo TOKEN repo (rs ++ final :: rest) e =
    Returned (concat pages ++ last_items) rest
      {| clock := clock e;
         trace := requested (contributors_url repo) (HEADERS TOKEN) page_params
                    1 (S (length rs)) (trace e) |}.
Proof.
  intros Hfull [Hs Hb] Hshort. unfold fetch_contributors_for_repo.
  rewrite (contributors_loop_full_pages repo rs pages Hfull).
  rewrite requested_last. simpl app.
  destruct last_items as [|c items].
  - rewrite (contributors_loop_empty_page TOKEN repo final rest _ _ _ Hs Hb).
    now rewrite app_nil_r.
  - rewrite (contributors_loop_page TOKEN repo final rest _ _ (c :: items) _ Hs Hb)
      by discriminate.
    cbv zeta. apply Z.ltb_lt in Hshort. rewrite Hshort. reflexivity.
Qed.

Lemma contributors_loop_limits (repo : string) (rs : list response) :
  forall page contributors e,
  limit_responses (clock e) rs ->
  exists e',
    (forall rest,
       contributors_loop TOKEN repo (rs ++ rest) page contributors e =
       contributors_loop TOKEN repo rest page contributors e') /\
    clock e + 2 * Z.of_nat (length rs) <= clock e' /\
    length (sleeps (trace e')) = (length (sleeps (trace e)) + length rs)%nat /\
    requests (trace e') = repeat (contributors_url repo) (length rs) ++ requests (trace e).
Proof.
  induction rs as [|r rs IH]; intros page cs e Hall.
  - exists e. repeat split; simpl; auto; lia.
  - destruct Hall
      as (wait & (Hs & Hrem & reset & ts & Hreset & Hint & -> & Hmax & Hos) & Hall).
    set (wait := Z.max 0 (ts - clock e) + 2) in *.
    set (e1 := sleep wait (log (Stdout (RateLimitReached wait))
                 (log (Get (contributors_url repo) (HEADERS TOKEN) (page_params page)) e))).
    destruct (IH page cs e1 Hall) as (e' & Hloop & Hclock & Hsleeps & Hreqs).
    exists e'. split; [|split; [|split]].
    + intros rest. change ((r :: rs) ++ rest) with (r :: (rs ++ rest)).
      rewrite contributors_loop_turn. cbv zeta.
      rewrite (handle_rate_limit_signal _ _ reset ts Hs Hrem Hreset Hint)
        by first [exact Hmax | exact Hos].
      apply Hloop.
    + simpl length. subst e1 wait. simpl clock in Hclock. lia.
    + rewrite Hsleeps. subst e1. simpl. lia.
    + rewrite Hreqs. subst e1. simpl requests. simpl length.
      apply repeat_app_cons.
Qed.

(** X4.  The loop has no bound on its retries: any number of rate-limited
    answers in a row, each with a wait that [time.sleep] accepts at the
    time it is received, are each followed by a sleep of at least two
    seconds and a new request for the same page, with the accumulated
    items unchanged, and while nothing else is answered the loop
    neither returns nor raises. *)
Theorem rate_limits_are_retried_without_bound (repo : string) (rs : list response)
    (page : Z) (contributors : list json) (e : env) :
  limit_responses (clock e) rs ->
  exists e',
    (forall rest,
       contributors_loop TOKEN repo (rs ++ rest) page contributors e =
       contributors_loop TOKEN repo rest page contributors e') /\
    contributors_loop TOKEN repo rs page contributors e =
      Starved (log (Get (contributors_url repo) (HEADERS TOKEN) (page_params page)) e') /\
    clock e + 2 * Z.of_nat (length rs) <= clock e' /\
    length (sleeps (trace e')) = (length (sleeps (trace e)) + length rs)%nat /\
    requests (trace e') = repeat (contributors_url repo) (length rs) ++ requests (trace e).
Proof.
  intros Hall.
  destruct (contributors_loop_limits repo rs page contributors e Hall)
    as (e' & Hloop & Hrest).
  exists e'. split; [exact Hloop|]. split; [|exact Hrest].
  rewrite <- (app_nil_r rs) at 1. rewrite Hloop. reflexivity.
Qed.

End AllPages.

(** X5.  When the handler answers [True], the reset header read as an
    integer and the wait was one [time.sleep] accepts; after the sleep
    the clock is at least two seconds past the reset time the response
    announced and at least two seconds past the time of the call, and
    the one sleep recorded lasted exactly the time that has passed. *)
Theorem handle_rate_limit_sleeps_past_reset {pf : Platform} (resp : response) (e e' : env) :
  handle_rate_limit resp e = inr (true, e') ->
  exists reset reset_ts,
    header_get "X-RateLimit-Reset" (headers resp) = Some reset /\
    py_int_limited reset = Some reset_ts /\
    reset_ts + 2 <= clock e' /\ clock e + 2 <= clock e' /\
    clock e' - clock e <= MAX_SLEEP /\
    os_sleeps (clock e) (clock e' - clock e) = true /\
    sleeps (trace e') = clock e' - clock e :: sleeps (trace e).
Proof.
  intros H. apply handle_rate_limit_true_inv in H
    as (reset & ts & _ & _ & Hreset & Hint & Hmax & Hos & ->).
  exists reset, ts. split; [exact Hreset|]. split; [exact Hint|].
  simpl clock. simpl trace.
  replace (clock e + (Z.max 0 (ts - clock e) + 2) - clock e)
    with (Z.max 0 (ts - clock e) + 2) by lia.
  repeat split; try lia; try assumption.
Qed.

(** ** Further properties of the issue counting *)

Lemma count_where_app (p : json -> bool) (l1 l2 : list json) :
  count_where p (l1 ++ l2) = count_where p l1 + count_where p l2.
Proof. induction l1 as [|x l1 IH]; simpl; [reflexivity|]. rewrite IH. lia. Qed.

Lemma count_where_split (p : json -> bool) (l : list json) :
  count_where p l + count_where (fun x => negb (p x)) l = Z.of_nat (length l).
Proof.
  induction l as [|x l IH]; [reflexivity|].
  simpl count_where. simpl length. destruct (p x); simpl negb; lia.
Qed.

Lemma count_items_dicts (items : list json) :
  forallb is_dict items = true ->
  forall i p,
    count_items items i p =
      inr (i + count_where (fun it => negb (is_pull_request it)) items,
           p + count_where is_pull_request items).
Proof.
  induction items as [|it items IH]; simpl; intros Hall i p.
  - now rewrite !Z.add_0_r.
  - apply andb_true_iff in Hall as [Hit Hall].
    destruct it as [| | | | |d]; try discriminate. simpl.
    destruct (truthy (default JNull (assoc_get "pull_request" d))); simpl;
      rewrite (IH Hall); f_equal; f_equal; lia.
Qed.

Lemma count_items_not_dict (items : list json) :
  forallb is_dict items = false ->
  forall i p, count_items items i p = inl AttributeError.
Proof.
  induction items as [|it items IH]; simpl; intros Hall i p; [discriminate|].
  destruct it as [| | | | |d]; try reflexivity. simpl in *.
  destruct (truthy _); now apply IH.
Qed.

(** X6.  The loop of lines 88-92 adds to the PR count the items whose
    [pull_request] field is truthy and to the issue count all the
    others, so the two counts grow by the number of items together; it
    raises [AttributeError] exactly when an item is not an object. *)
Theorem count_items_classifies (items : list json) (i p : Z) :
  count_items items i p =
    (if forallb is_dict items
     then inr (i + count_where (fun it => negb (is_pull_request it)) items,
               p + count_where is_pull_request items)
     else inl AttributeError)
  /\
  count_where is_pull_request items
    + count_where (fun it => negb (is_pull_request it)) items
  = Z.of_nat (length items).
Proof.
  split; [|apply count_where_split].
  destruct (forallb is_dict items) eqn:Hall.
  - now apply count_items_dicts.
  - now apply count_items_not_dict.
Qed.

Section AllIssuePages.

Context {pf : Platform}.
Variable TOKEN : option string.

Lemma issues_loop_page (repo author : string) (resp : response) (rest : list response)
    (page i p : Z) (items : list json) (e : env) :
  page_response resp items ->
  items <> [] ->
  forallb is_dict items = true ->
  issues_loop TOKEN repo author (resp :: rest) page i p e =
    let e1 := log (Get (issues_url repo) (HEADERS TOKEN) (issues_params author page)) e in
    let i1 := i + count_where (fun it => negb (is_pull_request it)) items in
    let p1 := p + count_where is_pull_request items in
    if Z.of_nat (length items) <? PER_PAGE
    then Returned (i1, p1) rest e1
    else issues_loop TOKEN repo author rest (page + 1) i1 p1 e1.
Proof.
  intros [Hs Hb] Hne Hd. rewrite issues_loop_turn. cbv zeta.
  rewrite handle_rate_limit_no_signal by now apply success_no_signal.
  rewrite Hs, Hb. simpl negb. cbv iota.
  destruct items as [|c items]; [congruence|].
  cbn [truthy negb py_iter py_len]. cbv iota.
  rewrite (count_items_dicts _ Hd). reflexivity.
Qed.

Lemma issues_loop_empty_page (repo author : string) (resp : response)
    (rest : list response) (page i p : Z) (e : env) :
  page_response resp [] ->
  issues_loop TOKEN repo author (resp :: rest) page i p e =
    Returned (i, p) rest
      (log (Get (issues_url repo) (HEADERS TOKEN) (issues_params author page)) e).
Proof.
  intros [Hs Hb]. rewrite issues_loop_turn. cbv zeta.
  rewrite handle_rate_limit_no_signal by now apply success_no_signal.
  rewrite Hs, Hb. reflexivity.
Qed.

Lemma issues_loop_full_pages (repo author : string) (rs : list response)
    (pages : list (list json)) :
  Forall2 full_page_response rs pages ->
  forallb is_dict (concat pages) = true ->
  forall rest page i p e,
    issues_loop TOKEN repo author (rs ++ rest) page i p e =
    issues_loop TOKEN repo author rest (page + Z.of_nat (length rs))
      (i + count_where (fun it => negb (is_pull_request it)) (concat pages))
      (p + count_where is_pull_request (concat pages))
      {| clock := clock e;
         trace := requested (issues_url repo) (HEADERS TOKEN) (issues_params author)
                    page (length rs) (trace e) |}.
Proof.
  induction 1 as [|r items rs pages [Hp Hlen] Hall IH]; intros Hd rest page i p e.
  - simpl. rewrite !Z.add_0_r. now destruct e.
  - simpl concat in Hd. rewrite forallb_app in Hd.
    apply andb_true_iff in Hd as [Hd1 Hd2].
    assert (Hne : items <> []) by (intros ->; discriminate Hlen).
    change ((r :: rs) ++ rest) with (r :: (rs ++ rest)).
    rewrite (issues_loop_page repo author r _ page i p items e Hp Hne Hd1).
    cbv zeta. rewrite Hlen, Z.ltb_irrefl, (IH Hd2).
    simpl concat. rewrite !count_where_app, !Z.add_assoc.
    replace (page + 1 + Z.of_nat (length rs)) with (page + Z.of_nat (length (r :: rs)))
      by (simpl length; lia).
    reflexivity.
Qed.

(** X7.  Any number of full pages of the issues listing followed by a page
    that is short or empty, all items being objects: the function
    returns the number of items that are no pull requests and the number
    of pull requests over all the pages, which add up to the number of
    items, after one request per page. *)
Theorem fetch_issues_all_pages (repo author : string) (rs : list response)
    (pages : list (list json)) (final : response) (last_items : list json)
    (rest : list response) (e : env) :
  Forall2 full_page_response rs pages ->
  page_response final last_items ->
  Z.of_nat (length last_items) < PER_PAGE ->
  forallb is_dict (concat pages ++ last_items) = true ->
  let items := concat pages ++ last_items in
  let issues_count := count_where (fun it => negb (is_pull_request it)) items in
  let prs_count := count_where is_pull_request items in
  fetch_issues_and_prs_for_author TOKEN repo author (rs ++ final :: rest) e =
    Returned (issues_count, prs_count) rest
      {| clock := clock e;
         trace := requested (issues_url repo) (HEADERS TOKEN) (issues_params author)
                    1 (S (length rs)) (trace e) |}
  /\ issues_count + prs_count = Z.of_nat (length items).
Proof.
  intros Hfull Hfinal Hshort Hd items issues_count prs_count.
  split; [|subst issues_count prs_count; rewrite Z.add_comm; apply count_where_split].
  subst items issues_count prs_count.
  rewrite forallb_app in Hd. apply andb_true_iff in Hd as [Hd1 Hd2].
  unfold fetch_issues_and_prs_for_author.
  rewrite (issues_loop_full_pages repo author rs pages Hfull Hd1).
  rewrite requested_last, !count_where_app. simpl Z.add.
  destruct last_items as [|c its].
  - rewrite (issues_loop_empty_page repo author final rest _ _ _ _ Hfinal).
    simpl count_where. rewrite !Z.add_0_r. reflexivity.
  - rewrite (issues_loop_page repo author final rest _ _ _ (c :: its) _ Hfinal)
      by (try discriminate; exact Hd2).
    cbv zeta. apply Z.ltb_lt in Hshort. rewrite Hshort. reflexivity.
Qed.

End AllIssuePages.

(** ** Further properties of the profile lookup *)

Lemma final_env_bind {A B} (m : M A) (k : A -> M B) script e :
  final_env (bind m k script e) =
    match m script e with
    | Returned a rest e1 => final_env (k a rest e1)
    | Raised _ e1 => e1
    | Starved e1 => e1
    end.
Proof. unfold bind. now destruct (m script e). Qed.

Section Profile.

Context {pf : Platform}.
Variable TOKEN : option string.

Lemma profile_response_first (login : string) (resp : response) (rest : list response)
    (e : env) :
  rate_limit_signal resp = false ->
  profile_response TOKEN login (resp :: rest) e =
    Returned resp rest (log (Get (user_url login) (HEADERS TOKEN) []) e).
Proof.
  intros Hsig. cbv [profile_response bind requests_get rate_limited].
  now rewrite (handle_rate_limit_no_signal _ _ Hsig).
Qed.

Lemma profile_response_second (login : string) (limited_resp resp : response)
    (rest : list response) (e : env) (reset : string) (reset_ts : Z) :
  status_code limited_resp = 403 ->
  header_get "X-RateLimit-Remaining" (headers limited_resp) = Some "0" ->
  header_get "X-RateLimit-Reset" (headers limited_resp) = Some reset ->
  py_int_limited reset = Some reset_ts ->
  Z.max 0 (reset_ts - clock e) + 2 <= MAX_SLEEP ->
  os_sleeps (clock e) (Z.max 0 (reset_ts - clock e) + 2) = true ->
  profile_response TOKEN login (limited_resp :: resp :: rest) e =
    Returned resp rest
      (log (Get (user_url login) (HEADERS TOKEN) [])
         (sleep (Z.max 0 (reset_ts - clock e) + 2)
            (log (Stdout (RateLimitReached (Z.max 0 (reset_ts - clock e) + 2)))
               (log (Get (user_url login) (HEADERS TOKEN) []) e)))).
Proof.
  intros Hs Hrem Hreset Hint Hmax Hos.
  cbv [profile_response bind requests_get rate_limited].
  now rewrite (handle_rate_limit_signal _ _ reset reset_ts Hs Hrem Hreset Hint)
    by first [exact Hmax | exact Hos].
Qed.

Lemma get_user_meta_success (login : string) script e resp rest e' :
  profile_response TOKEN login script e = Returned resp rest e' ->
  status_code resp = 200 ->
  get_user_meta TOKEN login script e =
    match json_body resp with
    | None => Raised JSONDecodeError e'
    | Some (JDict d) =>
        Returned
          {| meta_avatar := default (JStr EmptyString) (assoc_get "avatar_url" d);
             meta_url := default (JStr ("https://github.com/" +:+ login))
                           (assoc_get "html_url" d) |} rest e'
    | Some _ => Raised AttributeError e'
    end.
Proof.
  intros Hp Hs. unfold get_user_meta, bind at 1. rewrite Hp, Hs. simpl Z.eqb. cbv iota.
  destruct (json_body resp) as [[| | | | |d]|]; reflexivity.
Qed.

(** X8.  A successful profile lookup, at once or after one rate-limited
    answer whose reset time [int] reads and whose wait [time.sleep]
    accepts: an object gives the avatar from [avatar_url], or the empty
    string when the key is missing, and the URL from [html_url], or
    [https://github.com/<login>] when the key is missing; a body that is
    JSON but no object raises [AttributeError], and a body that is no
    JSON raises the decoding error. *)
Theorem get_user_meta_reads_profile (login : string) (resp : response) :
  status_code resp = 200 ->
  let read (rest : list response) (e' : env) : outcome meta :=
    match json_body resp with
    | None => Raised JSONDecodeError e'
    | Some (JDict d) =>
        Returned
          {| meta_avatar := default (JStr EmptyString) (assoc_get "avatar_url" d);
             meta_url := default (JStr ("https://github.com/" +:+ login))
                           (assoc_get "html_url" d) |} rest e'
    | Some _ => Raised AttributeError e'
    end in
  (forall rest e,
     get_user_meta TOKEN login (resp :: rest) e =
       read rest (log (Get (user_url login) (HEADERS TOKEN) []) e))
  /\
  (forall limited_resp rest e reset reset_ts,
     status_code limited_resp = 403 ->
     header_get "X-RateLimit-Remaining" (headers limited_resp) = Some "0" ->
     header_get "X-RateLimit-Reset" (headers limited_resp) = Some reset ->
     py_int_limited reset = Some reset_ts ->
     Z.max 0 (reset_ts - clock e) + 2 <= MAX_SLEEP ->
     os_sleeps (clock e) (Z.max 0 (reset_ts - clock e) + 2) = true ->
     let wait := Z.max 0 (reset_ts - clock e) + 2 in
     get_user_meta TOKEN login (limited_resp :: resp :: rest) e =
       read rest
         {| clock := clock e + wait;
            trace := Get (user_url login) (HEADERS TOKEN) [] :: Sleep wait ::
                     Stdout (RateLimitReached wait) ::
                     Get (user_url login) (HEADERS TOKEN) [] :: trace e |}).
Proof.
  intros Hs read. split.
  - intros rest e. subst read.
    apply get_user_meta_success; [|exact Hs].
    apply profile_response_first. now apply success_no_signal.
  - intros limited_resp rest e reset reset_ts Hl Hrem Hreset Hint Hmax Hos wait. subst read.
    apply get_user_meta_success; [|exact Hs].
    now apply (profile_response_second login limited_resp resp rest e reset reset_ts).
Qed.

Lemma profile_response_effort (login : string) (script : list response) (e : env) :
  exists n : nat,
    (n = 1 \/ n = 2)%nat /\
    requests (trace (final_env (profile_response TOKEN login script e)))
      = repeat (user_url login) n ++ requests (trace e) /\
    (length (sleeps (trace (final_env (profile_response TOKEN login script e))))
       <= length (sleeps (trace e)) + 1)%nat /\
    match profile_response TOKEN login script e with
    | Returned _ rest _ => length script = (length rest + n)%nat
    | _ => True
    end.
Proof.
  cbv [profile_response bind requests_get rate_limited].
  destruct script as [|r1 script].
  { exists 1%nat. simpl. repeat split; auto; lia. }
  destruct (handle_rate_limit r1 _) as [[x ex]|[[|] e1]] eqn:Hh.
  - apply handle_rate_limit_raised_inv in Hh as (_ & _ & [->|[wait ->]]);
      exists 1%nat; simpl; repeat split; auto; lia.
  - apply handle_rate_limit_true_inv in Hh as (reset & ts & _ & _ & _ & _ & _ & _ & ->).
    exists 2%nat. destruct script as [|r2 script]; simpl; repeat split; auto; lia.
  - apply handle_rate_limit_false_inv in Hh as [_ ->].
    exists 1%nat. simpl. repeat split; auto; lia.
Qed.

Lemma get_user_meta_final_env (login : string) (script : list response) (e : env) :
  final_env (get_user_meta TOKEN login script e)
    = final_env (profile_response TOKEN login script e)
  /\
  forall m rest e',
    get_user_meta TOKEN login script e = Returned m rest e' ->
    exists resp, profile_response TOKEN login script e = Returned resp rest e'.
Proof.
  unfold get_user_meta. rewrite final_env_bind. split.
  - destruct (profile_response TOKEN login script e) as [resp rest e1|x e1|e1];
      [|reflexivity..].
    destruct (status_code resp =? 200); [|reflexivity].
    destruct (json_body resp) as [[| | | | |d]|]; reflexivity.
  - intros m rest' e' H. apply bind_returned in H as (resp & r1 & x1 & Hp & H).
    exists resp. rewrite Hp.
    destruct (status_code resp =? 200).
    + destruct (json_body resp) as [[| | | | |d]|];
        cbv [bind lift py_get ret raise] in H; try discriminate H.
      inversion H; subst. reflexivity.
    + cbv [ret] in H. inversion H; subst. reflexivity.
Qed.

(** X9.  Whatever the answers and the outcome, [get_user_meta] makes one
    request, or two when the first answer is a rate limit, all for the
    user's URL, and sleeps at most once: a second rate-limited answer is
    not retried.  When it returns it has consumed as many responses as
    it made requests. *)
Theorem get_user_meta_requests_at_most_twice (login : string) (script : list response)
    (e : env) :
  exists n : nat,
    (n = 1 \/ n = 2)%nat /\
    requests (trace (final_env (get_user_meta TOKEN login script e)))
      = repeat (user_url login) n ++ requests (trace e) /\
    (length (sleeps (trace (final_env (get_user_meta TOKEN login script e))))
       <= length (sleeps (trace e)) + 1)%nat /\
    forall m rest e',
      get_user_meta TOKEN login script e = Returned m rest e' ->
      length script = (length rest + n)%nat.
Proof.
  destruct (profile_response_effort login script e) as (n & Hn & Hreq & Hsl & Hused).
  destruct (get_user_meta_final_env login script e) as [Hfinal Hret].
  exists n. rewrite Hfinal. repeat split; auto.
  intros m rest e' H. apply Hret in H as [resp H]. now rewrite H in Hused.
Qed.

End Profile.

(** ** Further properties of the commit counting *)

Lemma count_contributor_item (P : gset string) (l : string) (n : Z)
    (cc : gmap string Z) :
  count_contributor P (contributor l n) cc =
    inr (if negb (is_empty l) && bool_decide (l ∈ P)
         then <[l := count_of cc l + n]> cc else cc).
Proof.
  unfold count_contributor, contributor, count_of. simpl.
  destruct l as [|c l]; [reflexivity|]. simpl.
  now destruct (bool_decide (String c l ∈ P)).
Qed.

Lemma count_of_insert (cc : gmap string Z) (l login : string) (n : Z) :
  count_of (<[l := n]> cc) login = if String.eqb l login then n else count_of cc login.
Proof.
  unfold count_of. rewrite lookup_insert.
  destruct (String.eqb_spec l login) as [->|Hne].
  - now rewrite decide_True.
  - now rewrite decide_False.
Qed.

(** X10.  Over well-formed contributor items, the counting never raises, and
    the count of a login grows by the sum of the contributions reported
    for it when it is a participant and not the empty string; no other
    count changes. *)
Theorem count_contributors_sums (P : gset string) (entries : list (string * Z))
    (cc : gmap string Z) :
  exists cc',
    count_contributors P (contributor_items entries) cc = inr cc' /\
    forall login,
      count_of cc' login =
        count_of cc login +
        (if negb (is_empty login) && bool_decide (login ∈ P)
         then contributions_of login entries else 0).
Proof.
  revert cc. induction entries as [|[l n] entries IH]; intros cc.
  - exists cc. split; [reflexivity|]. intros login.
    simpl. destruct (_ && _); lia.
  - simpl contributor_items. simpl count_contributors.
    rewrite count_contributor_item.
    destruct (IH (if negb (is_empty l) && bool_decide (l ∈ P)
                  then <[l := count_of cc l + n]> cc else cc)) as (cc' & Hrun & Hsum).
    exists cc'. split; [exact Hrun|]. intros login. rewrite Hsum. simpl contributions_of.
    destruct (String.eqb_spec l login) as [->|Hne].
    + destruct (negb (is_empty login) && bool_decide (login ∈ P)).
      * rewrite count_of_insert, String.eqb_refl. lia.
      * lia.
    + destruct (negb (is_empty l) && bool_decide (l ∈ P)).
      * rewrite count_of_insert. destruct (String.eqb_spec l login); [congruence|].
        destruct (_ && _); lia.
      * destruct (_ && _); lia.
Qed.

(** X11.  When the counting of one item raises, over JSON without
    fractional numbers: the item is no object ([AttributeError]), or its
    login is a non-empty list or object ([TypeError]), or its login is a
    participant and its [contributions] is present and is null, a
    string, a list or an object ([TypeError]).  The items of others are
    skipped whatever they carry. *)
Theorem count_contributor_raises (P : gset string) (c : json) (cc : gmap string Z)
    (x : exn) :
  count_contributor P c cc = inl x <->
  (is_dict c = false /\ x = AttributeError) \/
  (exists d login,
     c = JDict d /\ x = TypeError /\
     default JNull (assoc_get "login" d) = login /\ truthy login = true /\
     (is_dict login = true \/ (exists items, login = JList items) \/
      (exists l v, login = JStr l /\ l ∈ P /\
         assoc_get "contributions" d = Some v /\
         (v = JNull \/ (exists s, v = JStr s) \/
          (exists items, v = JList items) \/ (exists d', v = JDict d'))))).
Proof.
  unfold count_contributor. destruct c as [| | | | |d]; simpl;
    try (split; [intros [= <-]; left; auto | intros [[_ ->]|(d & ? & [=] & _)]; reflexivity]).
  destruct (default JNull (assoc_get "login" d)) as [|b|k|l|items|d'] eqn:Hlogin; simpl.
  all: split; [intros H | intros [[[=] _]|(d0 & login & [= <-] & -> & <- & Ht & Hcase)]].
  all: try discriminate H.
  all: try (destruct b; discriminate H).
  all: try (destruct (negb (k =? 0)); discriminate H).
  all: try (exfalso; rewrite Hlogin in Hcase;
            destruct Hcase as [Hd|[[its Hl]|(l0 & v & Hl & _)]]; discriminate).
  - (* a string login: forward *)
    destruct (negb (l =? "")%string) eqn:Hne; simpl in H; [|discriminate H].
    destruct (bool_decide_reflect (l ∈ P)) as [HP|HP]; simpl in H; [|discriminate H].
    destruct (assoc_get "contributions" d) as [v|] eqn:Hv; simpl in H; [|discriminate H].
    destruct v; simpl in H; try discriminate H; injection H as <-;
      right; exists d, (JStr l);
      (split; [reflexivity|]); (split; [reflexivity|]); (split; [exact Hlogin|]);
      (split; [exact Hne|]); right; right; exists l; eexists;
      (split; [reflexivity|]); (split; [exact HP|]); (split; [exact Hv|]);
      first [ left; reflexivity
            | right; left; eexists; reflexivity
            | right; right; left; eexists; reflexivity
            | right; right; right; eexists; reflexivity ].
  - (* a string login: backward *)
    rewrite Hlogin in Ht, Hcase. simpl in Ht. rewrite Ht. simpl.
    destruct Hcase as [Hd|[[its Hl]|(l0 & v & Hl & HP & Hv & Hnum)]]; try discriminate.
    injection Hl as <-. rewrite (bool_decide_eq_true_2 _ HP). simpl.
    rewrite Hv. simpl.
    destruct Hnum as [->|[[s ->]|[[its ->]|[d1 ->]]]]; reflexivity.
  - (* a list login *)
    destruct items as [|it items]; [discriminate H|]. injection H as <-.
    right. exists d, (JList (it :: items)).
    (split; [reflexivity|]); (split; [reflexivity|]); (split; [exact Hlogin|]).
    split; [reflexivity|]. right. left. now exists (it :: items).
  - rewrite Hlogin in Ht. simpl in Ht. destruct items; [discriminate|reflexivity].
  - (* an object login *)
    destruct d' as [|kv d']; [discriminate H|]. injection H as <-.
    right. exists d, (JDict (kv :: d')).
    (split; [reflexivity|]); (split; [reflexivity|]); (split; [exact Hlogin|]).
    split; [reflexivity|]. now left.
  - rewrite Hlogin in Ht. simpl in Ht. destruct d'; [discriminate|reflexivity].
Qed.

(** ** Further properties of the sort and of the table *)

Section Stability.

Context {A : Type} (key : A -> Z).

Lemma with_key_insert_desc (v : Z) (x : A) (l : list A) :
  with_key key v (insert_desc key x l) = with_key key v (x :: l).
Proof.
  induction l as [|y l IH]; [reflexivity|].
  simpl insert_desc. destruct (Z.leb_spec (key y) (key x)) as [Hle|Hgt]; [reflexivity|].
  simpl with_key in *. rewrite IH.
  destruct (Z.eqb_spec (key x) v) as [Hx|Hx], (Z.eqb_spec (key y) v) as [Hy|Hy];
    try reflexivity.
  lia.
Qed.

(** X12.  [sorted(..., reverse=True)] as the script uses it only reorders: the
    result is a permutation of the input in non-increasing order of the
    key, and elements of equal key keep the order they had, so that ties
    in the table follow the order in which the users were collected. *)
Theorem py_sorted_reverse_is_stable (l : list A) :
  Permutation l (py_sorted_reverse key l) /\
  StronglySorted (key_ge key) (py_sorted_reverse key l) /\
  forall v, with_key key v (py_sorted_reverse key l) = with_key key v l.
Proof.
  split; [apply py_sorted_reverse_perm|]. split; [apply py_sorted_reverse_sorted|].
  intros v. induction l as [|x l IH]; [reflexivity|].
  simpl py_sorted_reverse. rewrite with_key_insert_desc. simpl. now rewrite IH.
Qed.

End Stability.




Lemma dict_set_nodup {A} (k : string) (v : A) (d : list (string * A)) :
  NoDup (keys d) -> NoDup (keys (dict_set k v d)).
Proof.
  induction d as [|[k' v'] d IH]; simpl; intros Hd.
  - constructor; [now intros ?%elem_of_nil | constructor].
  - destruct (String.eqb_spec k k') as [->|Hne]; simpl; [exact Hd|].
    apply NoDup_cons in Hd as [Hk' Hd]. apply NoDup_cons. split; [|auto].
    intros Hin. apply list_elem_of_In, keys_dict_set in Hin as [->|Hin]; [congruence|].
    apply Hk'. now apply list_elem_of_In.
Qed.

Section Rows.

Context {pf : Platform}.
Variables (TOKEN : option string) (set_iter : gset string -> list string)
  (repr_container : json -> string).

Lemma collect_nodup (include_zero : bool) (cc pc ic : gmap string Z) (l : list string) :
  forall users script e users' rest e',
    NoDup (keys users) ->
    for_each l (collect_user TOKEN include_zero cc pc ic) users script e
      = Returned users' rest e' ->
    NoDup (keys users').
Proof.
  intros users script e users' rest e' Hnd.
  apply (for_each_inv (fun (us : list (string * user_data)) (_ : list response) =>
                         NoDup (keys us))); [|exact Hnd].
  clear. intros login us script e us' rest e' Hus H.
  apply collect_user_returned in H as [(_ & _ & ->)|(_ & m & ->)]; [exact Hus|].
  now apply dict_set_nodup.
Qed.

(** X14.  No login has two rows in the table written, whatever the order in
    which the set of participants is visited; and when zero-inclusion
    is requested and the visit enumerates the set, the logins of the
    rows are exactly the participants. *)
Theorem each_participant_has_one_row (a : args) (file : participants_file)
    script e rest e' :
  main TOKEN set_iter repr_container a file script e = Returned tt rest e' ->
  exists items sorted_users e2,
    file = Items items /\
    wrote_table repr_container a sorted_users e2 e' /\
    NoDup (keys sorted_users) /\
    ((forall (s : gset string) (x : string), In x (set_iter s) <-> x ∈ s) ->
     include_zero a = true ->
     forall login, In login (keys sorted_users) <-> In login items).
Proof.
  intros H.
  apply main_returned in H as (su & e2 & Hr & He').
  apply rank_users_returned in Hr as (P & cc & pc & ic & rest1 & e1 & users & Ht & Hu & ->).
  apply tally_returned in Ht as (items & _ & _ & _ & _ & Hfile & -> & _).
  exists items, (py_sorted_reverse (sort_key (include_prs_issues a)) users), e2.
  split; [exact Hfile|]. split; [exact He'|].
  assert (Hperm : Permutation (keys users)
                    (keys (py_sorted_reverse (sort_key (include_prs_issues a)) users))).
  { unfold keys. apply Permutation_map, py_sorted_reverse_perm. }
  unfold collect_users in Hu. split.
  - rewrite <- Hperm. eapply collect_nodup; [|exact Hu]. constructor.
  - intros Hiter Hzero login.
    apply collect_spec in Hu as [Hkeys _].
    assert (Hmem : In login (set_iter (list_to_set items)) <-> In login items).
    { rewrite Hiter, elem_of_list_to_set. apply list_elem_of_In. }
    rewrite <- Hmem. split.
    + intros Hin. apply (Permutation_in _ (Permutation_sym Hperm)) in Hin.
      apply Hkeys in Hin as [[]|[Hin _]]. exact Hin.
    + intros Hin. apply (Permutation_in _ Hperm). apply Hkeys. right. auto.
Qed.

(** X15.  Without PR/issue counting, every row of the table written carries
    zero PRs and zero issues, so that the total of a row is its commits. *)
Theorem commits_only_rows_have_no_prs_issues (a : args) (file : participants_file)
    script e rest e' :
  main TOKEN set_iter repr_container a file script e = Returned tt rest e' ->
  include_prs_issues a = false ->
  exists sorted_users e2,
    wrote_table repr_container a sorted_users e2 e' /\
    forall login data, In (login, data) sorted_users ->
      prs data = 0 /\ issues data = 0 /\ total_key (login, data) = commits data.
Proof.
  intros H Hflag.
  apply main_returned in H as (su & e2 & Hr & He').
  apply rank_users_returned in Hr as (P & cc & pc & ic & rest1 & e1 & users & Ht & Hu & ->).
  apply tally_returned in Ht as (items & rs & x1 & r2 & x2 & _ & _ & _ & Hpi).
  destruct Hpi as [[Hon _]|(_ & -> & -> & _)]; [congruence|].
  eexists _, e2. split; [exact He'|].
  intros login data Hin.
  apply (Permutation_in _ (Permutation_sym (py_sorted_reverse_perm _ users))) in Hin.
  unfold collect_users in Hu. apply collect_spec in Hu as [_ Hdata].
  apply Hdata in Hin as [[]|(_ & _ & Hp & Hi)].
  unfold count_of in Hp, Hi. rewrite lookup_empty in Hp, Hi. simpl in Hp, Hi.
  unfold total_key. simpl. rewrite Hp, Hi. repeat split; lia.
Qed.

End Rows.

(** ** What a run may do to its environment *)

Lemma py_get_exn (v : json) (k : string) (dflt : json) (x : exn) :
  py_get v k dflt = inl x -> x = AttributeError.
Proof. destruct v; simpl; congruence. Qed.

Lemma py_add_exn (n : Z) (v : json) (x : exn) : py_add n v = inl x -> x = TypeError.
Proof. destruct v; simpl; congruence. Qed.

Lemma count_items_exn (items : list json) (i p : Z) (x : exn) :
  count_items items i p = inl x -> x = AttributeError.
Proof.
  destruct (forallb is_dict items) eqn:Hd.
  - now rewrite count_items_dicts.
  - rewrite count_items_not_dict by exact Hd. congruence.
Qed.

Lemma count_contributor_exn (P : gset string) (c : json) (cc : gmap string Z) (x : exn) :
  count_contributor P c cc = inl x -> is_exit x = false.
Proof.
  unfold count_contributor.
  destruct (py_get c "login" JNull) as [y|login] eqn:Hl.
  { apply py_get_exn in Hl as ->. now intros [= <-]. }
  destruct (negb (truthy login)); [discriminate|].
  destruct login as [| | |l| |]; try discriminate; try (now intros [= <-]).
  destruct (negb (bool_decide (l ∈ P))); [discriminate|].
  destruct (py_get c "contributions" (JInt 0)) as [y|v] eqn:Hc.
  { apply py_get_exn in Hc as ->. now intros [= <-]. }
  destruct (py_add _ v) as [y|n] eqn:Ha; [|discriminate].
  apply py_add_exn in Ha as ->. now intros [= <-].
Qed.

Lemma count_contributors_exn (P : gset string) (contribs : list json)
    (cc : gmap string Z) (x : exn) :
  count_contributors P contribs cc = inl x -> is_exit x = false.
Proof.
  revert cc. induction contribs as [|c contribs IH]; simpl; intros cc; [discriminate|].
  destruct (count_contributor P c cc) as [y|cc1] eqn:Hc.
  - intros [= <-]. eapply count_contributor_exn; eauto.
  - apply IH.
Qed.

Section Sound.

Context {pf : Platform}.
Variable R : env -> env -> Prop.
Hypothesis R_refl : forall e, R e e.
Hypothesis R_trans : forall e1 e2 e3, R e1 e2 -> R e2 e3 -> R e1 e3.
Hypothesis R_log : forall ev e, quiet ev = true -> R e (log ev e).
Hypothesis R_sleep : forall secs e, 2 <= secs -> R e (sleep secs e).

Lemma sound_ret {A} (a : A) : sound R (ret a).
Proof. intros script e. split; [apply R_refl | discriminate]. Qed.

Lemma sound_emit (ev : event) : quiet ev = true -> sound R (emit ev).
Proof. intros Hq script e. split; [now apply R_log | discriminate]. Qed.

Lemma sound_lift {A} (r : exn + A) :
  (forall x, r = inl x -> is_exit x = false) -> sound R (lift r).
Proof.
  intros Hr script e. destruct r as [x|a]; simpl.
  - split; [apply R_refl|]. intros y e'. unfold raise. intros [= <- _]. now apply Hr.
  - apply sound_ret.
Qed.

Lemma sound_bind {A B} (m : M A) (k : A -> M B) :
  sound R m -> (forall a, sound R (k a)) -> sound R (bind m k).
Proof.
  intros Hm Hk script e. unfold bind.
  destruct (Hm script e) as [HR Hx].
  destruct (m script e) as [a rest e1|x e1|e1]; simpl in *.
  - destruct (Hk a rest e1) as [HR1 Hx1]. split; [|exact Hx1]. eapply R_trans; eauto.
  - split; [exact HR|]. intros y e'. intros [= <- <-]. eapply Hx; eauto.
  - split; [exact HR|]. discriminate.
Qed.

Lemma sound_bind_ret {A B} (a : A) (k : A -> M B) :
  sound R (k a) -> sound R (bind (ret a) k).
Proof. intros Hk script e. apply Hk. Qed.

Lemma sound_for_each {A S} (body : A -> S -> M S) (l : list A) :
  (forall x s, sound R (body x s)) -> forall s, sound R (for_each l body s).
Proof.
  intros Hbody. induction l as [|x l IH]; intros s; simpl.
  - apply sound_ret.
  - apply sound_bind; [apply Hbody | exact IH].
Qed.

Lemma handle_rate_limit_sound (resp : response) (e : env) :
  match handle_rate_limit resp e with
  | inl (x, e') => is_exit x = false /\ R e e'
  | inr (_, e') => R e e'
  end.
Proof.
  destruct (handle_rate_limit resp e) as [[x ex]|[[|] e1]] eqn:Hh.
  - apply handle_rate_limit_raised_inv in Hh as (_ & Hx & [->|[wait ->]]).
    + split; [exact Hx | apply R_refl].
    + split; [exact Hx | now apply R_log].
  - apply handle_rate_limit_true_inv in Hh as (reset & ts & _ & _ & _ & _ & _ & _ & ->).
    apply R_trans with (log (Stdout (RateLimitReached (Z.max 0 (ts - clock e) + 2))) e);
      [now apply R_log|].
    apply R_sleep. lia.
  - apply handle_rate_limit_false_inv in Hh as [_ ->]. apply R_refl.
Qed.

Variable TOKEN : option string.

Lemma sound_requests_get (url : string) (params : list (string * json)) :
  sound R (requests_get TOKEN url params).
Proof.
  intros script e. unfold requests_get.
  destruct script; simpl; (split; [now apply R_log | discriminate]).
Qed.

Lemma sound_contributors_loop (repo : string) (script : list response) :
  forall page contributors e,
    R e (final_env (contributors_loop TOKEN repo script page contributors e)) /\
    forall x e',
      contributors_loop TOKEN repo script page contributors e = Raised x e' ->
      is_exit x = false.
Proof.
  induction script as [|resp script IH]; intros page cs e.
  - simpl. split; [now apply R_log | discriminate].
  - rewrite contributors_loop_turn. cbv zeta.
    set (e0 := log (Get (contributors_url repo) (HEADERS TOKEN) (page_params page)) e).
    assert (H0 : R e e0) by now apply R_log.
    pose proof (handle_rate_limit_sound resp e0) as Hh.
    destruct (handle_rate_limit resp e0) as [[x ex]|[[|] e1]].
    + destruct Hh as [Hx HR]. simpl.
      split; [eapply R_trans; eauto | now intros y e' [= <- _]].
    + destruct (IH page cs e1) as [HR Hx]. split; [|exact Hx].
      eapply R_trans; [exact H0|]. eapply R_trans; eauto.
    + assert (H1 : R e e1) by (eapply R_trans; eauto).
      destruct (negb (status_code resp =? 200)).
      { simpl. split; [|discriminate]. eapply R_trans; [exact H1|]. now apply R_log. }
      destruct (json_body resp) as [page_items|];
        [|simpl; split; [exact H1 | now intros y e' [= <- _]]].
      destruct (negb (truthy page_items)); [simpl; split; [exact H1|discriminate]|].
      destruct (py_iter page_items) as [items|];
        [|simpl; split; [exact H1 | now intros y e' [= <- _]]].
      destruct (py_len page_items) as [n|];
        [|simpl; split; [exact H1 | now intros y e' [= <- _]]].
      destruct (n <? PER_PAGE); [simpl; split; [exact H1|discriminate]|].
      destruct (IH (page + 1) (cs ++ items) e1) as [HR Hx]. split; [|exact Hx].
      eapply R_trans; eauto.
Qed.

Lemma sound_issues_loop (repo author : string) (script : list response) :
  forall page i p e,
    R e (final_env (issues_loop TOKEN repo author script page i p e)) /\
    forall x e',
      issues_loop TOKEN repo author script page i p e = Raised x e' ->
      is_exit x = false.
Proof.
  induction script as [|resp script IH]; intros page i p e.
  - simpl. split; [now apply R_log | discriminate].
  - rewrite issues_loop_turn. cbv zeta.
    set (e0 := log (Get (issues_url repo) (HEADERS TOKEN) (issues_params author page)) e).
    assert (H0 : R e e0) by now apply R_log.
    pose proof (handle_rate_limit_sound resp e0) as Hh.
    destruct (handle_rate_limit resp e0) as [[x ex]|[[|] e1]].
    + destruct Hh as [Hx HR]. simpl.
      split; [eapply R_trans; eauto | now intros y e' [= <- _]].
    + destruct (IH page i p e1) as [HR Hx]. split; [|exact Hx].
      eapply R_trans; [exact H0|]. eapply R_trans; eauto.
    + assert (H1 : R e e1) by (eapply R_trans; eauto).
      destruct (negb (status_code resp =? 200)).
      { simpl. split; [|discriminate]. eapply R_trans; [exact H1|]. now apply R_log. }
      destruct (json_body resp) as [items|];
        [|simpl; split; [exact H1 | now intros y e' [= <- _]]].
      destruct (negb (truthy items)); [simpl; split; [exact H1|discriminate]|].
      destruct (py_iter items) as [its|];
        [|simpl; split; [exact H1 | now intros y e' [= <- _]]].
      destruct (py_len items) as [n|];
        [|simpl; split; [exact H1 | now intros y e' [= <- _]]].
      destruct (count_items its i p) as [x|[i1 p1]] eqn:Hc.
      { apply count_items_exn in Hc as ->. simpl.
        split; [exact H1 | now intros y e' [= <- _]]. }
      destruct (n <? PER_PAGE); [simpl; split; [exact H1|discriminate]|].
      destruct (IH (page + 1) i1 p1 e1) as [HR Hx]. split; [|exact Hx].
      eapply R_trans; eauto.
Qed.

Lemma sound_get_user_meta (login : string) : sound R (get_user_meta TOKEN login).
Proof.
  unfold get_user_meta, profile_response.
  apply sound_bind.
  - apply sound_bind; [apply sound_requests_get|]. intros resp.
    apply sound_bind.
    + intros script e. unfold rate_limited.
      pose proof (handle_rate_limit_sound resp e) as Hh.
      destruct (handle_rate_limit resp e) as [[x ex]|[b e1]]; simpl.
      * destruct Hh as [Hx HR]. split; [exact HR | now intros y e' [= <- _]].
      * split; [exact Hh | discriminate].
    + intros [|]; [apply sound_requests_get | apply sound_ret].
  - intros resp. destruct (status_code resp =? 200); [|apply sound_ret].
    destruct (json_body resp) as [j|].
    + apply sound_bind.
      * apply sound_lift. intros x Hx. now apply py_get_exn in Hx as ->.
      * intros av. apply sound_bind; [|intros u; apply sound_ret].
        apply sound_lift. intros x Hx. now apply py_get_exn in Hx as ->.
    + intros script e. split; [apply R_refl | now intros y e' [= <- _]].
Qed.

Variable set_iter : gset string -> list string.

Lemma sound_count_commits (P : gset string) (repos : list string) :
  sound R (count_commits TOKEN P repos).
Proof.
  unfold count_commits. apply sound_for_each. intros repo cc.
  apply sound_bind; [now apply sound_emit|]. intros _.
  apply sound_bind.
  - intros script e. apply sound_contributors_loop.
  - intros contribs. apply sound_lift. intros x. apply count_contributors_exn.
Qed.

Lemma sound_count_prs_issues (P : gset string) (repos : list string) :
  sound R (count_prs_issues TOKEN set_iter P repos).
Proof.
  unfold count_prs_issues. apply sound_for_each. intros repo counts.
  apply sound_bind; [now apply sound_emit|]. intros _.
  apply sound_for_each. intros login [pc ic].
  apply sound_bind.
  - intros script e. apply sound_issues_loop.
  - intros [i p]. apply sound_ret.
Qed.

Lemma sound_collect_users (include_zero : bool) (P : gset string)
    (cc pc ic : gmap string Z) :
  sound R (collect_users TOKEN set_iter include_zero P cc pc ic).
Proof.
  unfold collect_users. apply sound_for_each. intros login users.
  unfold collect_user. destruct (_ && _); [apply sound_ret|].
  apply sound_bind; [apply sound_get_user_meta|]. intros m. apply sound_ret.
Qed.

(** The counting once the participants are loaded and not empty. *)
Lemma sound_tally_loaded (a : args) (items : list string) :
  list_to_set (C := gset string) items <> ∅ ->
  sound R (tally TOKEN set_iter a (Items items)).
Proof.
  intros Hne. unfold tally, load_participants.
  apply sound_bind_ret. rewrite bool_decide_eq_false_2 by exact Hne.
  apply sound_bind.
  { destruct TOKEN as [[|c t]|]; (now apply sound_emit) || apply sound_ret. }
  intros _. apply sound_bind; [now apply sound_emit|]. intros _.
  apply sound_bind; [now apply sound_emit|]. intros _.
  apply sound_bind; [apply sound_count_commits|]. intros cc.
  apply sound_bind.
  - destruct (include_prs_issues a); [|apply sound_ret].
    apply sound_bind; [now apply sound_emit|]. intros _. apply sound_count_prs_issues.
  - intros [pc ic]. apply sound_ret.
Qed.

Lemma sound_rank_users_loaded (a : args) (items : list string) :
  list_to_set (C := gset string) items <> ∅ ->
  sound R (rank_users TOKEN set_iter a (Items items)).
Proof.
  intros Hne. unfold rank_users.
  apply sound_bind; [now apply sound_tally_loaded|].
  intros [[[P cc] pc] ic].
  apply sound_bind; [apply sound_collect_users|]. intros users. apply sound_ret.
Qed.

End Sound.

(** ** Exits and files *)

Section Exits.

Context {pf : Platform}.
Variables (TOKEN : option string) (set_iter : gset string -> list string)
  (repr_container : json -> string).

Lemma tally_not_found (a : args) script e :
  tally TOKEN set_iter a FileNotFound script e =
    Raised (SystemExit 1) (log (Stderr (ParticipantsNotFound "data/participants.json")) e).
Proof. reflexivity. Qed.

Lemma tally_load_error (a : args) script e :
  tally TOKEN set_iter a LoadError script e =
    Raised (SystemExit 1) (log (Stderr ParticipantsError) e).
Proof. reflexivity. Qed.

Lemma tally_empty (a : args) script e :
  tally TOKEN set_iter a (Items []) script e =
    Raised (SystemExit 1) (log (Stderr ParticipantsEmpty) e).
Proof.
  unfold tally, load_participants, bind at 1, ret at 1. simpl list_to_set.
  rewrite bool_decide_eq_true_2 by reflexivity. reflexivity.
Qed.

Lemma list_to_set_cons_nonempty (x : string) (l : list string) :
  list_to_set (C := gset string) (x :: l) <> ∅.
Proof.
  intros H. assert (Hx : x ∈ (list_to_set (x :: l) : gset string)).
  { apply elem_of_list_to_set. now left. }
  rewrite H in Hx. now apply elem_of_empty in Hx.
Qed.

(** What [main] does when [tally] raised. *)
Lemma main_of_tally_raised (a : args) (file : participants_file) script e x e1 :
  tally TOKEN set_iter a file script e = Raised x e1 ->
  main TOKEN set_iter repr_container a file script e = Raised x e1.
Proof. intros H. unfold main, rank_users, bind. now rewrite H. Qed.

(** An exit of [main] is an exit of the lines before the write. *)
Lemma main_raised (a : args) (file : participants_file) script e code e' :
  main TOKEN set_iter repr_container a file script e = Raised (SystemExit code) e' ->
  rank_users TOKEN set_iter a file script e = Raised (SystemExit code) e'.
Proof.
  unfold main, bind at 1.
  destruct (rank_users TOKEN set_iter a file script e) as [su r1 e1|y e1|e1];
    [|now intros [= <- <-] | discriminate].
  cbv [bind write_text emit].
  destruct (os_writes _ _) as [| |[|]]; discriminate.
Qed.

Lemma main_exits_parsed (a : args) (file : participants_file)
    script e (code : Z) (e' : env) :
  main TOKEN set_iter repr_container a file script e = Raised (SystemExit code) e' <->
  code = 1 /\
  ((file = FileNotFound /\
    e' = log (Stderr (ParticipantsNotFound "data/participants.json")) e) \/
   (file = LoadError /\ e' = log (Stderr ParticipantsError) e) \/
   (file = Items [] /\ e' = log (Stderr ParticipantsEmpty) e)).
Proof.
  destruct file as [| |[|x items]].
  - rewrite (main_of_tally_raised a _ script e _ _ (tally_not_found a script e)).
    split.
    + intros [= <- <-]. auto.
    + intros (-> & [[_ ->]|[[[=] _]|[[=] _]]]). reflexivity.
  - rewrite (main_of_tally_raised a _ script e _ _ (tally_load_error a script e)).
    split.
    + intros [= <- <-]. auto.
    + intros (-> & [[[=] _]|[[_ ->]|[[=] _]]]). reflexivity.
  - rewrite (main_of_tally_raised a _ script e _ _ (tally_empty a script e)).
    split.
    + intros [= <- <-]. auto 6.
    + intros (-> & [[[=] _]|[[[=] _]|[_ ->]]]). reflexivity.
  - split.
    + intros H. apply main_raised in H.
      destruct (sound_rank_users_loaded (fun _ _ => True) (fun _ => I) (fun _ _ _ _ _ => I)
                  (fun _ _ _ => I) (fun _ _ _ => I) TOKEN set_iter a (x :: items)
                  (list_to_set_cons_nonempty x items) script e) as [_ Hx].
      apply Hx in H. discriminate H.
    + intros (_ & [[[=] _]|[[[=] _]|[[=] _]]]).
Qed.

(** X1.  [main] leaves through [sys.exit] in exactly these cases: the
    command line asks for the help, with status 0 after the help text;
    the command line is refused, with status 2 after the usage error;
    or the command line is accepted and the participants file is
    missing, cannot be loaded, or holds no participant, with status 1
    after the diagnostic.  In each case nothing else has been printed
    and no request has been made. *)
Theorem main_exit_statuses (cmd : parse_result) (file : participants_file)
    script e (code : Z) (e' : env) :
  main_from_command_line TOKEN set_iter repr_container cmd file script e
    = Raised (SystemExit code) e' <->
  (cmd = Help /\ code = 0 /\ e' = log (Stdout ArgparseHelp) e) \/
  (cmd = UsageError /\ code = 2 /\ e' = log (Stderr ArgparseError) e) \/
  (exists a, cmd = Parsed a /\ code = 1 /\
     ((file = FileNotFound /\
       e' = log (Stderr (ParticipantsNotFound "data/participants.json")) e) \/
      (file = LoadError /\ e' = log (Stderr ParticipantsError) e) \/
      (file = Items [] /\ e' = log (Stderr ParticipantsEmpty) e))).
Proof.
  destruct cmd as [| |a]; simpl main_from_command_line.
  - split.
    + intros [= <- <-]. left. auto.
    + intros [(_ & -> & ->)|[([=] & _)|(a & [=] & _)]]. reflexivity.
  - split.
    + intros [= <- <-]. right. left. auto.
    + intros [([=] & _)|[(_ & -> & ->)|(a & [=] & _)]]. reflexivity.
  - rewrite main_exits_parsed. split.
    + intros [Hc Hf]. right. right. exists a. auto.
    + intros [([=] & _)|[([=] & _)|(a0 & [= <-] & Hc & Hf)]]. auto.
Qed.

End Exits.


Lemma runs_on_log (ev : event) (e : env) :
  (forall secs, ev <> Sleep secs) -> runs_on e (log ev e).
Proof.
  intros Hev. unfold runs_on. simpl. split; [lia|]. split; [now exists [ev]|].
  destruct ev; simpl; auto. now destruct (Hev secs).
Qed.

Lemma runs_on_trans (e1 e2 e3 : env) : runs_on e1 e2 -> runs_on e2 e3 -> runs_on e1 e3.
Proof.
  intros (Hc1 & [evs1 Ht1] & Hs1) (Hc2 & [evs2 Ht2] & Hs2).
  split; [lia|]. split; [|auto].
  exists (evs2 ++ evs1). now rewrite Ht2, Ht1, app_assoc.
Qed.

Section Files.

Context {pf : Platform}.
Variables (TOKEN : option string) (set_iter : gset string -> list string)
  (repr_container : json -> string).

(** What holds of [rank_users] for a relation that the printing, the
    requests and the sleeps of two seconds or more all keep. *)
Lemma rank_users_keeps (R : env -> env -> Prop) :
  (forall e, R e e) ->
  (forall e1 e2 e3, R e1 e2 -> R e2 e3 -> R e1 e3) ->
  (forall ev e, quiet ev = true -> R e (log ev e)) ->
  (forall secs e, 2 <= secs -> R e (sleep secs e)) ->
  forall a file script e, R e (final_env (rank_users TOKEN set_iter a file script e)).
Proof.
  intros Hrefl Htrans Hlog Hsleep a file script e.
  destruct file as [| |[|x items]].
  - unfold rank_users, bind at 1. rewrite tally_not_found. now apply Hlog.
  - unfold rank_users, bind at 1. rewrite tally_load_error. now apply Hlog.
  - unfold rank_users, bind at 1. rewrite tally_empty. now apply Hlog.
  - apply (sound_rank_users_loaded R Hrefl Htrans Hlog Hsleep TOKEN set_iter a (x :: items)
             (list_to_set_cons_nonempty x items) script e).
Qed.



(** X17.  Whatever its outcome, a run only adds events to the trace, never
    moves the clock back, and never sleeps less than two seconds: no
    call of [time.sleep] gets a negative duration. *)
Theorem run_continues_its_environment (a : args) (file : participants_file) script e :
  runs_on e (final_env (main TOKEN set_iter repr_container a file script e)).
Proof.
  assert (Hkeep : runs_on e (final_env (rank_users TOKEN set_iter a file script e))).
  { apply rank_users_keeps.
    - intros e0. split; [lia|]. split; [now exists []|auto].
    - apply runs_on_trans.
    - intros ev e0 Hq. apply runs_on_log. intros secs ->. discriminate Hq.
    - intros secs e0 Hs. unfold runs_on. simpl. split; [lia|].
      split; [now exists [Sleep secs]|]. intros H. now constructor. }
  unfold main, bind at 1.
  destruct (rank_users TOKEN set_iter a file script e) as [su r1 e1|x e1|e1];
    simpl in Hkeep; [|exact Hkeep..].
  cbv [bind write_text emit].
  destruct (os_writes _ _) as [| |unencodable]; simpl final_env.
  - eapply runs_on_trans; [exact Hkeep|].
    eapply runs_on_trans; apply runs_on_log; discriminate.
  - exact Hkeep.
  - eapply runs_on_trans; [exact Hkeep|]. apply runs_on_log. discriminate.
Qed.

End Files.

(** ** Where the returned items come from *)

Section Accounting.

Context {pf : Platform}.
Variable TOKEN : option string.

Lemma from_successful_page_later (resp : response) (used : list response) (c : json) :
  from_successful_page used c -> from_successful_page (resp :: used) c.
Proof.
  intros (r & v & items & Hin & H). exists r, v, items. split; [now right | exact H].
Qed.

Lemma contributors_loop_accounting (repo : string) (script : list response) :
  forall page contributors e contributors' rest e',
    contributors_loop TOKEN repo script page contributors e
      = Returned contributors' rest e' ->
    exists used new,
      script = used ++ rest /\ used <> [] /\
      contributors' = contributors ++ new /\
      Forall (from_successful_page used) new /\
      requests (trace e')
        = repeat (contributors_url repo) (length used) ++ requests (trace e).
Proof.
  induction script as [|resp script IH]; intros page cs e cs' rest e' H.
  - discriminate H.
  - rewrite contributors_loop_turn in H. cbv zeta in H.
    destruct (handle_rate_limit resp _) as [[x ex]|[[|] e1]] eqn:Hh; [discriminate| |].
    + apply handle_rate_limit_true_inv in Hh as (reset & ts & _ & _ & _ & _ & _ & _ & ->).
      apply IH in H as (used & new & -> & _ & -> & Hnew & Hreq).
      exists (resp :: used), new. repeat split; try discriminate.
      * eapply Forall_impl; [exact Hnew|]. apply from_successful_page_later.
      * rewrite Hreq. simpl requests. simpl length. apply repeat_app_cons.
    + apply handle_rate_limit_false_inv in Hh as [_ ->].
      destruct (negb (status_code resp =? 200)) eqn:Hs.
      { injection H as <- <- <-. exists [resp], []. repeat split; try discriminate.
        - now rewrite app_nil_r.
        - constructor. }
      apply negb_false_iff, Z.eqb_eq in Hs.
      destruct (json_body resp) as [page_items|] eqn:Hbody; [|discriminate].
      destruct (negb (truthy page_items)).
      { injection H as <- <- <-. exists [resp], []. repeat split; try discriminate.
        - now rewrite app_nil_r.
        - constructor. }
      destruct (py_iter page_items) as [items|] eqn:Hiter; [|discriminate].
      destruct (py_len page_items) as [n|]; [|discriminate].
      assert (Hitems : Forall (from_successful_page [resp]) items).
      { apply Forall_forall. intros c Hc. exists resp, page_items, items.
        repeat split; auto; [now left | now apply list_elem_of_In]. }
      destruct (n <? PER_PAGE).
      * injection H as <- <- <-. exists [resp], items. repeat split; try discriminate.
        exact Hitems.
      * apply IH in H as (used & new & -> & _ & -> & Hnew & Hreq).
        exists (resp :: used), (items ++ new). repeat split; try discriminate.
        -- now rewrite app_assoc.
        -- apply Forall_app. split.
           ++ eapply Forall_impl; [exact Hitems|].
              intros c (r & v & its & [Hr|[]] & Hrest).
              exists r, v, its. split; [now left | exact Hrest].
           ++ eapply Forall_impl; [exact Hnew|]. apply from_successful_page_later.
        -- rewrite Hreq. simpl requests. simpl length. apply repeat_app_cons.
Qed.

(** X3.  When [fetch_contributors_for_repo] returns, it has consumed a
    non-empty prefix of the responses and left the rest untouched, it
    has made exactly one request per response consumed, all for the
    contributors URL of the repository, and every item it returns is an
    item of a successful page among those responses: nothing is taken
    from a failed or rate-limited response. *)
Theorem fetch_contributors_accounting (repo : string) (script : list response)
    (e : env) (contributors : list json) (rest : list response) (e' : env) :
  fetch_contributors_for_repo TOKEN repo script e = Returned contributors rest e' ->
  exists used,
    script = used ++ rest /\ used <> [] /\
    Forall (from_successful_page used) contributors /\
    requests (trace e')
      = repeat (contributors_url repo) (length used) ++ requests (trace e).
Proof.
  unfold fetch_contributors_for_repo. intros H.
  apply contributors_loop_accounting in H as (used & new & Hs & Hne & -> & Hnew & Hreq).
  exists used. repeat split; auto.
Qed.

End Accounting.

(** ** Further concrete runs *)

Lemma fetch_contributors_all_pages_run :
  fetch_contributors_for_repo None "o/r"
    (three_full_pages ++ ok_page [contributor "dave" 1] :: [not_found]) noon
  = Returned
      (concat [full_page "alice"; full_page "bob"; full_page "carol"]
         ++ [contributor "dave" 1])
      [not_found]
      {| clock := 200;
         trace := requested (contributors_url "o/r") (HEADERS None) page_params
                    1 4 [] |}.
Proof.
  apply (fetch_contributors_all_pages None "o/r" three_full_pages
           [full_page "alice"; full_page "bob"; full_page "carol"]
           (ok_page [contributor "dave" 1]) [contributor "dave" 1] [not_found] noon).
  - repeat constructor.
  - split; reflexivity.
  - reflexivity.
Defined.

Lemma fetch_issues_all_pages_run :
  fetch_issues_and_prs_for_author None "o/r" "alice" (ok_page issue_items :: [not_found]) noon
    = Returned (2, 1) [not_found]
        {| clock := 200;
           trace := [Get (issues_url "o/r") (HEADERS None) (issues_params "alice" 1)] |}
  /\ 2 + 1 = 3.
Proof.
  apply (fetch_issues_all_pages None "o/r" "alice" [] [] (ok_page issue_items)
           issue_items [not_found] noon).
  - constructor.
  - split; reflexivity.
  - reflexivity.
  - reflexivity.
Defined.

Lemma two_limits_are_limits : limit_responses (clock noon) two_limits.
Proof.
  exists 102. split.
  - split; [reflexivity|]. split; [reflexivity|]. exists "300", 300.
    split; [reflexivity|]. split; [reflexivity|]. split; [reflexivity|].
    split; [vm_compute; discriminate | reflexivity].
  - exists 100. split; [|exact I].
    split; [reflexivity|]. split; [reflexivity|]. exists "400", 400.
    split; [reflexivity|]. split; [reflexivity|]. split; [reflexivity|].
    split; [vm_compute; discriminate | reflexivity].
Defined.

Lemma rate_limits_are_retried_without_bound_run :
  exists e',
    contributors_loop None "o/r" two_limits 1 [] noon =
      Starved (log (Get (contributors_url "o/r") (HEADERS None) (page_params 1)) e') /\
    200 + 2 * 2 <= clock e'.
Proof.
  destruct (rate_limits_are_retried_without_bound None "o/r" two_limits 1 [] noon
              two_limits_are_limits) as (e' & _ & Hstarved & Hclock & _).
  exists e'. split; [exact Hstarved | exact Hclock].
Defined.

Lemma handle_rate_limit_sleeps_past_reset_run :
  exists reset reset_ts,
    header_get "X-RateLimit-Reset" (headers (limited "300")) = Some reset /\
    py_int_limited reset = Some reset_ts /\
    reset_ts + 2 <= clock after_one_limit /\ clock noon + 2 <= clock after_one_limit /\
    clock after_one_limit - clock noon <= MAX_SLEEP /\
    os_sleeps (clock noon) (clock after_one_limit - clock noon) = true /\
    sleeps (trace after_one_limit)
      = clock after_one_limit - clock noon :: sleeps (trace noon).
Proof.
  apply (handle_rate_limit_sleeps_past_reset (limited "300") noon after_one_limit).
  vm_compute. reflexivity.
Defined.

(** A profile read at once, and the same profile read after one
    rate-limited answer. *)
Lemma get_user_meta_reads_profile_run :
  get_user_meta None "alice" [profile_page] noon
  = Returned {| meta_avatar := JStr "https://a/alice.png";
                meta_url := JStr "https://github.com/alice" |}
      [] (log (Get (user_url "alice") (HEADERS None) []) noon)
  /\
  get_user_meta None "alice" [limited "300"; profile_page] noon
  = Returned {| meta_avatar := JStr "https://a/alice.png";
                meta_url := JStr "https://github.com/alice" |}
      []
      {| clock := 302;
         trace := [Get (user_url "alice") (HEADERS None) [];
                   Sleep 102; Stdout (RateLimitReached 102);
                   Get (user_url "alice") (HEADERS None) []] |}.
Proof.
  split.
  - exact (proj1 (get_user_meta_reads_profile None "alice" profile_page eq_refl) [] noon).
  - refine (proj2 (get_user_meta_reads_profile None "alice" profile_page eq_refl)
              (limited "300") [] noon "300" 300 eq_refl eq_refl eq_refl eq_refl _ eq_refl).
    vm_compute. discriminate.
Defined.



Lemma each_participant_has_one_row_run :
  exists items sorted_users e2,
    three_participants = Items items /\
    wrote_table question_mark (one_repo false false) sorted_users e2 short_run_end /\
    NoDup (keys sorted_users) /\
    ((forall (s : gset string) (x : string), In x (elements s) <-> x ∈ s) ->
     include_zero (one_repo false false) = true ->
     forall login, In login (keys sorted_users) <-> In login items).
Proof.
  apply (each_participant_has_one_row None elements question_mark
           (one_repo false false) three_participants short_run noon [] short_run_end).
  exact short_run_returns.
Defined.

Lemma commits_only_rows_have_no_prs_issues_run :
  exists sorted_users e2,
    wrote_table question_mark (one_repo false false) sorted_users e2 short_run_end /\
    forall login data, In (login, data) sorted_users ->
      prs data = 0 /\ issues data = 0 /\ total_key (login, data) = commits data.
Proof.
  apply (commits_only_rows_have_no_prs_issues None elements question_mark
           (one_repo false false) three_participants short_run noon [] short_run_end).
  - exact short_run_returns.
  - reflexivity.
Defined.

Lemma fetch_contributors_accounting_run :
  exists used,
    limit_then_failure = used ++ [ok_page []] /\ used <> [] /\
    Forall (from_successful_page used) [] /\
    requests (trace limit_then_failure_end)
      = repeat (contributors_url "o/r") (length used) ++ requests (trace noon).
Proof.
  apply (fetch_contributors_accounting None "o/r" limit_then_failure noon []
           [ok_page []] limit_then_failure_end).
  vm_compute. reflexivity.
Defined.
